(** * AULA F87 controller: the WebHID protocol engine

    A shallow embedding of [web/src/lib/webhid.ts] (the read-modify-write
    transactions [readConfig], [setEffect], [applyPerKey], [setSleepTimer])
    together with the parts of [./protocol] it imports.

    Conventions.
    - A [Uint8Array] is a [list Z] whose stores wrap modulo 256 ([poke]);
      a store outside the array is ignored, as typed arrays do.
    - JavaScript numbers handed to the operations are integers ([Z]);
      [null] is [None].
    - An object used as a map is the list of its entries in the order
      [Object.entries] yields them, each key a string held as its UTF-16
      code units; [parseInt] is the built-in of the language, written out
      for the call the code makes (no radix argument), its result an exact
      integer or [None] for [NaN].
    - The device is an explicit state: the outcomes of the successive
      [readReport] calls ([inbox], [None] being a timeout), the frames
      handed to [sendReport] ([outbox]) and the lines given to the [log]
      callback ([console]).  Delays ([sleep]) carry no state, and the
      transport itself never fails: the only exception is a frame builder
      rejecting its payload.
    - [./protocol] (frame builder, checksum, speed byte codec, effect table,
      templates) is not among the sources: its functions are modelled from
      the specification and the protocol notes, its templates are
      parameters. *)

From stdpp Require Import base option list gmap strings.
From Stdlib Require Import ZArith Lia.

Local Open Scope Z_scope.

(** ** Byte arrays *)

Definition wrap8 (v : Z) : Z := v mod 256.

(** [f[i] = v] on a [Uint8Array]. *)
Definition poke (f : list Z) (i : nat) (v : Z) : list Z := <[i := wrap8 v]> f.

(** [f[i]] read where only its bits are used: an absent element
    ([undefined]) behaves as 0 under [>>] and [&]. *)
Definition peek (f : list Z) (i : nat) : Z := default 0 (f !! i).

(** [new Uint8Array(xs)] for a [number[]] or another byte array. *)
Definition newUint8Array (xs : list Z) : list Z := wrap8 <$> xs.

Definition zeros (n : nat) : list Z := replicate n 0.

Definition sumZ (l : list Z) : Z := foldr Z.add 0 l.

(** ** Property keys *)

(** A property key as [Object.entries] yields it: a string, here its UTF-16
    code units. *)
Definition PropertyKey : Type := list Z.

(** The code units of an ASCII literal. *)
Definition codeUnits (s : string) : PropertyKey :=
  (λ c, Z.of_N (Ascii.N_of_ascii c)) <$> String.list_ascii_of_string s.

(** The white space and line terminators that [parseInt] skips: TAB, LF,
    VT, FF, CR, SP, NBSP, the other space separators, LS, PS and the byte
    order mark. *)
Definition isWhiteSpace (c : Z) : bool :=
  bool_decide (c ∈ [0x09; 0x0A; 0x0B; 0x0C; 0x0D; 0x20; 0xA0; 0x1680;
                    0x2028; 0x2029; 0x202F; 0x205F; 0x3000; 0xFEFF])
  || bool_decide (0x2000 ≤ c ≤ 0x200A).

Fixpoint trimStart (s : list Z) : list Z :=
  match s with
  | c :: s' => if isWhiteSpace c then trimStart s' else s
  | [] => []
  end.

(** The value of a digit of the radix: [0-9], then [a-z] or [A-Z] for 10
    and above. *)
Definition digitValue (radix c : Z) : option Z :=
  d ← (if decide (0x30 ≤ c ≤ 0x39) then Some (c - 0x30)
       else if decide (0x61 ≤ c ≤ 0x7A) then Some (c - 0x61 + 10)
       else if decide (0x41 ≤ c ≤ 0x5A) then Some (c - 0x41 + 10)
       else None);
  if decide (d < radix) then Some d else None.

(** The integer written by the longest prefix of digits; [None] when there
    is no digit at all. *)
Fixpoint parseDigits (radix : Z) (s : list Z) (acc : option Z) : option Z :=
  match s with
  | c :: s' =>
      match digitValue radix c with
      | Some d => parseDigits radix s' (Some (default 0 acc * radix + d))
      | None => acc
      end
  | [] => acc
  end.

(** [parseInt(string)] without a radix: leading white space is skipped, a
    sign is read, a prefix [0x] or [0X] selects radix 16, and the digits up
    to the first other character are read; [None] is [NaN].  The sign of a
    zero and the rounding of a long numeral to a double change neither the
    comparisons with 0 and 126 nor the element addressed. *)
Definition parseInt (string : PropertyKey) : option Z :=
  let inputString := trimStart string in
  let sign := match inputString with
              | c :: _ => if decide (c = 0x2D) then -1 else 1
              | [] => 1
              end in
  let unsigned := match inputString with
                  | c :: rest =>
                      if decide (c = 0x2B ∨ c = 0x2D) then rest
                      else inputString
                  | [] => inputString
                  end in
  let '(radix, numeral) :=
    match unsigned with
    | c :: x :: rest =>
        if decide (c = 0x30 ∧ (x = 0x78 ∨ x = 0x58))
        then (16, rest) else (10, unsigned)
    | _ => (10, unsigned)
    end in
  mathInt ← parseDigits radix numeral None;
  Some (sign * mathInt).

(** The decimal digits of [n], most significant first, before [acc]. *)
Fixpoint decimalDigits (fuel : nat) (n : Z) (acc : list Z) : list Z :=
  match fuel with
  | O => acc
  | S fuel' =>
      let acc' := (0x30 + n mod 10) :: acc in
      if decide (n < 10) then acc' else decimalDigits fuel' (n / 10) acc'
  end.

(** The property key of an integer number that the language writes in plain
    decimal, as it does every integer up to 2^53 in magnitude: a minus sign
    for a negative number, then the digits. *)
Definition numberKey (k : Z) : PropertyKey :=
  let digits n := decimalDigits (S (Z.to_nat (Z.log2 n))) n [] in
  if decide (k < 0) then 0x2D :: digits (- k) else digits k.

(** ** The protocol module *)

Module Protocol.

(** Modelled from the spec: the constants of [./protocol], which is not
    among the sources; the values are those of the wire-format table. *)
Definition REPORT_ID : Z := 0x13.
Definition CMD_READ : Z := 0x44.
Definition CMD_WRITE : Z := 0x04.
Definition CMD_COLOR : Z := 0x09.
Definition CMD_PERKEY : Z := 0x02.
Definition CMD_SAVE : Z := 0x0A.
Definition SUBCMD_CONFIG : Z := 0x0A.
Definition SUBCMD_PALETTE : Z := 0x25.
Definition SUBCMD_PERKEY : Z := 0x1C.
Definition SUBCMD_CONFIRM : Z := 0x01.
Definition SELF_DEFINE_EFFECT : Z := 21.

(** Modelled from the spec: [checksum] of [./protocol], which is not among
    the sources.  "sum of the first 19 bytes modulo 256". *)
Definition checksum (f : list Z) : Z := sumZ (take 19 f) mod 256.

(** Modelled from the spec: [buildFrame] of [./protocol].  The payload is
    zero-padded to 15 bytes, the checksum covers bytes 0-18, and a payload
    longer than 15 bytes is rejected. *)
Definition buildFrame (cmd sub seq : Z) (payload : list Z) : option (list Z) :=
  if decide (length payload ≤ 15)%nat then
    let body := [REPORT_ID; wrap8 cmd; wrap8 sub; wrap8 seq]
                  ++ newUint8Array payload
                  ++ zeros (15 - length payload) in
    Some (body ++ [checksum body])
  else None.

(** Modelled from the spec: [encodeSpeedByte] of [./protocol].  High nibble
    = speed, low nibble = 0x7 when colorful, 0x0 otherwise. *)
Definition encodeSpeedByte (speed : Z) (colorful : bool) : Z :=
  Z.lor (Z.shiftl speed 4) (if colorful then 0x7 else 0x0).

Record SpeedByte := { sb_speed : Z; sb_colorful : bool }.

(** Modelled from the spec: [decodeSpeedByte] of [./protocol], the inverse
    of the encoder; any other low nibble is not the colorful code. *)
Definition decodeSpeedByte (b : Z) : SpeedByte :=
  {| sb_speed := Z.shiftr b 4; sb_colorful := Z.land b 0x0f =? 0x7 |}.

Record EffectInfo := { name : string; speed : bool; color : bool }.

(** Modelled from the spec: the table [EFFECTS] of [./protocol], with the 19
    entries (1-18 and 21) that the protocol notes list. *)
Definition EFFECTS (n : Z) : option EffectInfo :=
  match n with
  | 1 => Some {| name := "Fixed_on"; speed := false; color := true |}
  | 2 => Some {| name := "Respire"; speed := true; color := true |}
  | 3 => Some {| name := "Rainbow"; speed := true; color := false |}
  | 4 => Some {| name := "Flash_away"; speed := true; color := true |}
  | 5 => Some {| name := "Raindrops"; speed := true; color := true |}
  | 6 => Some {| name := "Rainbow_wheel"; speed := true; color := true |}
  | 7 => Some {| name := "Ripples_shining"; speed := true; color := true |}
  | 8 => Some {| name := "Stars_twinkle"; speed := true; color := true |}
  | 9 => Some {| name := "Shadow_disappear"; speed := true; color := true |}
  | 10 => Some {| name := "Retro_snake"; speed := true; color := true |}
  | 11 => Some {| name := "Neon_stream"; speed := true; color := true |}
  | 12 => Some {| name := "Reaction"; speed := true; color := true |}
  | 13 => Some {| name := "Sine_wave"; speed := true; color := true |}
  | 14 => Some {| name := "Retinue_scanning"; speed := true; color := true |}
  | 15 => Some {| name := "Rotating_windmill"; speed := true; color := false |}
  | 16 => Some {| name := "Colorful_waterfall"; speed := true; color := false |}
  | 17 => Some {| name := "Blossoming"; speed := true; color := false |}
  | 18 => Some {| name := "Rotating_storm"; speed := true; color := true |}
  | 21 => Some {| name := "Self_define"; speed := false; color := false |}
  | _ => None
  end.

(** Modelled from the spec: [effectTableLoc] of [./protocol].  Effects 1-6
    live in fragment 4 at [7+(n-1)*2], 7-13 in fragment 5 at [5+(n-7)*2],
    14-18 in fragment 6 at [5+(n-14)*2]; any other number has no entry. *)
Definition effectTableLoc (n : Z) : option (nat * nat) :=
  if decide (1 ≤ n ≤ 6) then Some (4%nat, Z.to_nat (7 + (n - 1) * 2))
  else if decide (7 ≤ n ≤ 13) then Some (5%nat, Z.to_nat (5 + (n - 7) * 2))
  else if decide (14 ≤ n ≤ 18) then Some (6%nat, Z.to_nat (5 + (n - 14) * 2))
  else None.

End Protocol.

Import Protocol.

(** ** The device and the I/O monad *)

(** An [inputreport] event: the report id and the bytes of its buffer. *)
Record HIDInputReportEvent := { reportId : Z; data : list Z }.

(** The lines given to the [log] callback, one constructor per template. *)
Inductive LogMsg :=
| LogTX (frame : list Z)                      (* `TX: ${hex(data)}` *)
| LogRX (echo : option (list Z))              (* `RX: ${hex(echo)}` or 'RX: (no reply)' *)
| LogBulk (label : string) (ok total : nat)   (* `${label}: ${ok}/${total} OK` *)
| LogCfg (sq : Z) (r : list Z)                (* `  cfg[${seq}]=${hex(r)}` *)
| LogUnknownEffect (effectNum : Z)            (* `Unknown effect ${effectNum}` *)
| LogSettingEffect (effectNum : Z) (nm : string)
    (rgb : option (Z * Z * Z)) (cf : bool) (br sp : option Z)
| LogCurrentEffect (cur : Z)                  (* `  Current: #${config[0][15]} (...)` *)
| LogActive (nm : string)                     (* `✓ ${eff.name} active!\n` *)
| LogPerKeyApplied (keys : nat)
| LogSettingSleep (minutes : Z)
| LogCurrentSleep (curVal : Z)
| LogSleepSet (minutes : Z)
| LogText (line : string).

Record Device := {
  inbox : list (option HIDInputReportEvent);
  outbox : list (list Z);
  console : list LogMsg
}.

(** An awaited call either completes or throws. *)
Inductive Outcome (A : Type) :=
| Done (a : A)
| Thrown.
Arguments Done {A} a.
Arguments Thrown {A}.

Definition IO (A : Type) : Type := Device → Outcome A * Device.

Global Instance IO_ret : MRet IO := λ A a dev, (Done a, dev).
Global Instance IO_bind : MBind IO := λ A B k m dev,
  match m dev with
  | (Done a, dev') => k a dev'
  | (Thrown, dev') => (Thrown, dev')
  end.

(** A frame builder that rejects its payload throws in the caller. *)
Definition orThrow {A} (o : option A) : IO A := λ dev,
  match o with
  | Some a => (Done a, dev)
  | None => (Thrown, dev)
  end.

Definition log (msg : LogMsg) : IO unit := λ dev,
  (Done (), {| inbox := inbox dev; outbox := outbox dev;
               console := console dev ++ [msg] |}).

(** ** Low-level I/O *)

Definition sendReport (data : list Z) : IO unit := λ dev,
  log (LogTX data)
      {| inbox := inbox dev; outbox := outbox dev ++ [data];
         console := console dev |}.

(** The report handed to the caller: the report id followed by the buffer. *)
Definition fullReport (e : HIDInputReportEvent) : list Z :=
  wrap8 (reportId e) :: newUint8Array (data e).

(** One [readReport] call: the next outcome of the device, a timeout when
    nothing is left. *)
Definition readReport : IO (option (list Z)) := λ dev,
  match inbox dev with
  | [] => (Done None, dev)
  | o :: rest =>
      (Done (fullReport <$> o),
       {| inbox := rest; outbox := outbox dev; console := console dev |})
  end.

Definition txRx (frame : list Z) : IO (option (list Z)) :=
  sendReport frame;;
  echo ← readReport;
  log (LogRX echo);;
  mret echo.

Fixpoint txBulk_loop (frames echoes : list (list Z)) : IO (list (list Z)) :=
  match frames with
  | [] => mret echoes
  | frame :: rest =>
      echo ← txRx frame;
      txBulk_loop rest (match echo with
                        | Some e => echoes ++ [e]
                        | None => echoes
                        end)
  end.

Definition txBulk (frames : list (list Z)) (label : string)
  : IO (list (list Z)) :=
  echoes ← txBulk_loop frames [];
  log (LogBulk label (length echoes) (length frames));;
  mret echoes.

(** The guard of [readConfig] on an inbound report. *)
Definition isConfigFragment (r : list Z) : bool :=
  bool_decide (20 ≤ length r)%nat
  && (peek r 0 =? REPORT_ID) && (peek r 1 =? CMD_READ)
  && (peek r 2 =? SUBCMD_CONFIG).

Fixpoint readConfig_loop (attempts : nat) (config : list (option (list Z)))
  : IO (list (option (list Z))) :=
  match attempts with
  | O => mret config
  | S attempts' =>
      r ← readReport;
      match r with
      | None => mret config
      | Some r =>
          if isConfigFragment r then
            let sq := peek r 3 in
            if (0 <=? sq) && (sq <? 10) then
              log (LogCfg sq r);;
              readConfig_loop attempts' (<[Z.to_nat sq := Some r]> config)
            else readConfig_loop attempts' config
          else readConfig_loop attempts' config
      end
  end.

Definition readConfig : IO (list (option (list Z))) :=
  readFrame ← orThrow (buildFrame CMD_READ SUBCMD_CONFIRM 0 (zeros 15));
  sendReport readFrame;;
  readConfig_loop 12 (replicate 10 None).

(** [config.every(c => c !== null)] *)
Definition gotConfig (config : list (option (list Z))) : bool :=
  forallb (λ c, bool_decide (is_Some c)) config.

(** [config[seq]!] *)
Definition fragment (config : list (option (list Z))) (sq : nat) : list Z :=
  default [] (mjoin (config !! sq)).

Definition savePayload : list Z := poke (poke (zeros 15) 0 0x04) 1 0x07.

Definition save : IO (option (list Z)) :=
  saveFrame ← orThrow (buildFrame CMD_SAVE SUBCMD_CONFIRM 0 savePayload);
  txRx saveFrame.

(** ** High-level operations *)

Record EffectOptions := {
  colorRgb : option (Z * Z * Z);
  colorful : bool;
  speed : option Z;
  brightness : option Z
}.

(** [(colorRgb || colorful) ? 0x01 : 0x03] *)
Definition colorMode (opts : EffectOptions) : Z :=
  if bool_decide (is_Some (colorRgb opts)) || colorful opts then 0x01 else 0x03.

Section Operations.

(** The static templates of [./protocol]; their contents are not among
    the sources, so the operations take them as they are. *)
Variable CFG_TEMPLATE : list (list Z).
Variable PAL_TEMPLATE : list (list Z).
Variable PAL_ZEROS : list Z.
Variable PAL_LAST : list Z.

(** *** setEffect *)

(** Phase 2, the branch that rewrites the fragment read from the device. *)
Definition setEffect_fromRead (effectNum : Z) (opts : EffectOptions)
    (tgt : option (nat * nat)) (sq : nat) (r : list Z) : list Z :=
  let f := r in
  let f := poke f 1 CMD_WRITE in
  let f :=
    if decide (sq = 0%nat) then
      poke (poke (poke (poke f 8 0x01) 14 0x00) 15 effectNum) 17 (colorMode opts)
    else f in
  let f :=
    match tgt with
    | Some (tgtSeq, tgtOff) =>
        if decide (sq = tgtSeq) then
          let f := match brightness opts with
                   | Some b => poke f tgtOff b
                   | None => f
                   end in
          let cur := decodeSpeedByte (peek f (tgtOff + 1)) in
          poke f (tgtOff + 1)
            (encodeSpeedByte
               (match speed opts with Some s => s | None => sb_speed cur end)
               (if colorful opts then true
                else negb (bool_decide (is_Some (colorRgb opts)))
                     && sb_colorful cur))
        else f
    | None => f
    end in
  poke f 19 (checksum f).

(** Phase 2, the branch that patches the template payload. *)
Definition setEffect_fromTemplate (effectNum : Z) (opts : EffectOptions)
    (tgt : option (nat * nat)) (sq : nat) : option (list Z) :=
  let p := newUint8Array (default [] (CFG_TEMPLATE !! sq)) in
  let p :=
    if decide (sq = 0%nat) then
      poke (poke (poke (poke p 4 0x01) 10 0x00) 11 effectNum) 13 (colorMode opts)
    else p in
  let p :=
    match tgt with
    | Some (tgtSeq, tgtOff) =>
        if decide (sq = tgtSeq) then
          let payOff := (tgtOff - 4)%nat in
          let p := match brightness opts with
                   | Some b => poke p payOff b
                   | None => p
                   end in
          let cur := decodeSpeedByte (peek p (payOff + 1)) in
          poke p (payOff + 1)
            (encodeSpeedByte
               (match speed opts with Some s => s | None => sb_speed cur end)
               (if colorful opts then true
                else negb (bool_decide (is_Some (colorRgb opts)))
                     && sb_colorful cur))
        else p
    | None => p
    end in
  buildFrame CMD_WRITE SUBCMD_CONFIG (Z.of_nat sq) p.

Definition setEffect_writeFrames (config : list (option (list Z)))
    (effectNum : Z) (opts : EffectOptions) : option (list (list Z)) :=
  let tgt := effectTableLoc effectNum in
  mapM (λ sq,
          if gotConfig config then
            Some (setEffect_fromRead effectNum opts tgt sq (fragment config sq))
          else setEffect_fromTemplate effectNum opts tgt sq)
       (seq 0 10).

(** Phase 3: the payload of palette slot [i]. *)
Definition palettePayload (opts : EffectOptions) (i : nat) : list Z :=
  let payload :=
    if decide (i < length PAL_TEMPLATE)%nat
    then newUint8Array (default [] (PAL_TEMPLATE !! i))
    else if decide (i = 36%nat) then newUint8Array PAL_LAST
    else newUint8Array PAL_ZEROS in
  match colorRgb opts with
  | Some (r, g, b) =>
      if decide (i = 1%nat)
      then poke (poke (poke (poke payload 8 r) 9 g) 10 b) 12 0xff
      else payload
  | None => payload
  end.

Definition setEffect_palFrames (opts : EffectOptions)
  : option (list (list Z)) :=
  mapM (λ i, buildFrame CMD_COLOR SUBCMD_PALETTE (Z.of_nat i)
               (palettePayload opts i))
       (seq 0 37).

Definition setEffect (effectNum : Z) (opts : EffectOptions) : IO unit :=
  match EFFECTS effectNum with
  | None => log (LogUnknownEffect effectNum)
  | Some eff =>
      log (LogSettingEffect effectNum (name eff) (colorRgb opts)
             (colorful opts) (brightness opts) (speed opts));;
      log (LogText "Phase 1: Reading config...");;
      config ← readConfig;
      (if gotConfig config
       then log (LogCurrentEffect (peek (fragment config 0) 15))
       else log (LogText "  Using template"));;
      log (LogText "Phase 2: Writing config...");;
      writeFrames ← orThrow (setEffect_writeFrames config effectNum opts);
      txBulk writeFrames "Config";;
      log (LogText "Phase 3: Writing palette...");;
      palFrames ← orThrow (setEffect_palFrames opts);
      txBulk palFrames "Palette";;
      log (LogText "Phase 4: Saving...");;
      save;;
      log (LogActive (name eff))
  end.

(** *** applyPerKey *)

Definition applyPerKey_fromRead (sq : nat) (r : list Z) : list Z :=
  let f := r in
  let f := poke f 1 CMD_WRITE in
  let f :=
    if decide (sq = 0%nat) then
      poke (poke (poke (poke f 8 0x01) 14 0x00) 15 SELF_DEFINE_EFFECT) 17 0x01
    else f in
  poke f 19 (checksum f).

Definition applyPerKey_fromTemplate (sq : nat) : option (list Z) :=
  let p := newUint8Array (default [] (CFG_TEMPLATE !! sq)) in
  let p :=
    if decide (sq = 0%nat) then
      poke (poke (poke (poke p 4 0x01) 10 0x00) 11 SELF_DEFINE_EFFECT) 13 0x01
    else p in
  buildFrame CMD_WRITE SUBCMD_CONFIG (Z.of_nat sq) p.

Definition applyPerKey_writeFrames (config : list (option (list Z)))
  : option (list (list Z)) :=
  mapM (λ sq,
          if gotConfig config
          then Some (applyPerKey_fromRead sq (fragment config sq))
          else applyPerKey_fromTemplate sq)
       (seq 0 10).

(** One entry [[idx, rgb]] of [Object.entries(keyColors)]: the key is read
    with [parseInt]; an entry whose key is not read as an index in 0..125
    ([NaN] fails both comparisons) is skipped. *)
Definition paintKey (idx : PropertyKey) (rgb : Z * Z * Z)
    (planes : list Z * list Z * list Z) : list Z * list Z * list Z :=
  let '(R, G, B) := planes in
  match parseInt idx with
  | Some i =>
      if decide (0 ≤ i < 126) then
        (poke R (Z.to_nat i) rgb.1.1, poke G (Z.to_nat i) rgb.1.2,
         poke B (Z.to_nat i) rgb.2)
      else planes
  | None => planes
  end.

(** The three 126-byte planes, painted entry by entry in the order of
    [Object.entries]: of two entries read as the same index the later one
    stays. *)
Definition perKeyPlanes (keyColors : list (PropertyKey * (Z * Z * Z)))
  : list Z * list Z * list Z :=
  foldl (λ planes entry, paintKey entry.1 entry.2 planes)
        (zeros 126, zeros 126, zeros 126) keyColors.

(** The payload of fragment [s] of a plane. *)
Definition planePayload (plane : list Z) (s : nat) : list Z :=
  foldl (λ payload j, poke payload (1 + j) (peek plane (s * 14 + j)))
        (poke (zeros 15) 0 0x0e) (seq 0 14).

(** [for (let s = 0; s < 9; s++) perkeyFrames.push(buildFrame(.., seq++, ..))],
    threading the frames pushed so far and the sequence counter. *)
Fixpoint perkey_fragments (plane : list Z) (ss : list nat)
    (st : list (list Z) * Z) : option (list (list Z) * Z) :=
  match ss with
  | [] => Some st
  | s :: ss' =>
      f ← buildFrame CMD_PERKEY SUBCMD_PERKEY st.2 (planePayload plane s);
      perkey_fragments plane ss' (st.1 ++ [f], st.2 + 1)
  end.

Fixpoint perkey_planes (planes : list (list Z)) (st : list (list Z) * Z)
  : option (list (list Z) * Z) :=
  match planes with
  | [] => Some st
  | plane :: rest =>
      st' ← perkey_fragments plane (seq 0 9) st;
      perkey_planes rest st'
  end.

Definition trailer : list Z :=
  poke (poke (poke (zeros 15) 0 0x06) 3 0x5a) 4 0xa5.

Definition applyPerKey_perkeyFrames
    (keyColors : list (PropertyKey * (Z * Z * Z)))
  : option (list (list Z)) :=
  let '(R, G, B) := perKeyPlanes keyColors in
  st ← perkey_planes [R; G; B] ([], 0);
  f ← buildFrame CMD_PERKEY SUBCMD_PERKEY st.2 trailer;
  Some (st.1 ++ [f]).

Definition applyPerKey (keyColors : list (PropertyKey * (Z * Z * Z)))
  : IO unit :=
  log (LogText "── Applying per-key colors ──");;
  log (LogText "Phase 1: Reading config...");;
  config ← readConfig;
  log (LogText "Phase 2: Writing config (self-define mode)...");;
  writeFrames ← orThrow (applyPerKey_writeFrames config);
  txBulk writeFrames "Config";;
  log (LogText "Phase 3: Writing per-key color map...");;
  perkeyFrames ← orThrow (applyPerKey_perkeyFrames keyColors);
  txBulk perkeyFrames "PerKey";;
  log (LogText "Phase 4: Saving...");;
  save;;
  log (LogPerKeyApplied (length keyColors)).

(** *** setSleepTimer *)

Definition setSleepTimer_fromRead (sleepByte : Z) (s : nat) (r : list Z)
  : list Z :=
  let f := r in
  let f := poke f 1 CMD_WRITE in
  let f := if decide (s = 0%nat) then poke f 8 0x01 else f in
  let f := if decide (s = 1%nat) then poke f 15 sleepByte else f in
  poke f 19 (checksum f).

Definition setSleepTimer_writeFrames (config : list (option (list Z)))
    (sleepByte : Z) : list (list Z) :=
  (λ s, setSleepTimer_fromRead sleepByte s (fragment config s)) <$> seq 0 10.

Definition setSleepTimer (minutes : Z) : IO unit :=
  let sleepByte := minutes * 2 in
  log (LogSettingSleep minutes);;
  log (LogText "Phase 1: Reading config...");;
  config ← readConfig;
  if negb (gotConfig config) then log (LogText "ERROR: Could not read config")
  else
    let curVal := peek (fragment config 1) 15 in
    log (LogCurrentSleep curVal);;
    log (LogText "Phase 2: Writing config...");;
    txBulk (setSleepTimer_writeFrames config sleepByte) "Config";;
    log (LogText "Phase 3: Saving...");;
    save;;
    log (LogSleepSet minutes).

End Operations.

(** ** What a run is observed through *)

(** The reports that at most [n] receive attempts obtain: those before the
    first timeout. *)
Fixpoint polled (n : nat) (inb : list (option HIDInputReportEvent))
  : list (list Z) :=
  match n, inb with
  | S n', Some e :: rest => fullReport e :: polled n' rest
  | _, _ => []
  end.

(** The effect of one polled report on the slots. *)
Definition storeFragment (config : list (option (list Z))) (r : list Z)
  : list (option (list Z)) :=
  if isConfigFragment r && ((0 <=? peek r 3) && (peek r 3 <? 10))
  then <[Z.to_nat (peek r 3) := Some r]> config
  else config.

(** The slots [readConfig] returns on a device. *)
Definition configRead (dev : Device) : list (option (list Z)) :=
  foldl storeFragment (replicate 10 None) (polled 12 (inbox dev)).

(** A config fragment with sequence field [k]: a report of at least 20
    bytes that carries the report id, READ, CONFIG and [k]. *)
Definition FragmentFor (k : nat) (r : list Z) : Prop :=
  (20 ≤ length r)%nat ∧ r !! 0%nat = Some REPORT_ID
  ∧ r !! 1%nat = Some CMD_READ ∧ r !! 2%nat = Some SUBCMD_CONFIG
  ∧ r !! 3%nat = Some (Z.of_nat k).

Global Instance FragmentFor_dec k r : Decision (FragmentFor k r).
Proof. unfold FragmentFor. apply _. Defined.

(** The number of filled slots. *)
Definition filled (config : list (option (list Z))) : nat :=
  length (filter is_Some config).

(** The frames an operation hands to [sendReport] when run on [dev]. *)
Definition sent {A} (m : IO A) (dev : Device) : list (list Z) :=
  drop (length (outbox dev)) (outbox (m dev).2).

Definition readFrame : list Z :=
  [0x13; 0x44; 0x01; 0; 0; 0; 0; 0; 0; 0; 0; 0; 0; 0; 0; 0; 0; 0; 0; 0x58].

Definition saveFrame : list Z :=
  [0x13; 0x0A; 0x01; 0; 0x04; 0x07; 0; 0; 0; 0; 0; 0; 0; 0; 0; 0; 0; 0; 0; 0x29].

(** Reading LED [i] back from the 27 plane fragments of a per-key message:
    the payload starts at frame offset 4, its first byte is the marker. *)
Definition decodePerKey (frames : list (list Z)) (i : nat) : Z * Z * Z :=
  let f (plane : nat) := default [] (frames !! (plane * 9 + i / 14)%nat) in
  (peek (f 0%nat) (5 + i mod 14), peek (f 1%nat) (5 + i mod 14),
   peek (f 2%nat) (5 + i mod 14)).

(** The speed byte [setEffect] writes over [old]. *)
Definition rewrittenSpeedByte (opts : EffectOptions) (old : Z) : Z :=
  wrap8 (encodeSpeedByte
           (match speed opts with
            | Some s => s
            | None => sb_speed (decodeSpeedByte old)
            end)
           (if colorful opts then true
            else negb (bool_decide (is_Some (colorRgb opts)))
                 && sb_colorful (decodeSpeedByte old))).

(** [obj[key]]: the value of the property [key] of an object, if it has
    one. *)
Fixpoint property {V} (key : PropertyKey) (obj : list (PropertyKey * V))
  : option V :=
  match obj with
  | [] => None
  | (k, v) :: rest => if decide (k = key) then Some v else property key rest
  end.

(** The colour a per-key map gives LED [i]: [keyColors[i]], (0,0,0) when
    unset. *)
Definition colorAt (keyColors : list (PropertyKey * (Z * Z * Z))) (i : nat)
  : Z * Z * Z :=
  default (0, 0, 0) (property (numberKey (Z.of_nat i)) keyColors).

(** The LED a key is read as, if any. *)
Definition ledOf (key : PropertyKey) : option nat :=
  i ← parseInt key;
  if decide (0 ≤ i < 126) then Some (Z.to_nat i) else None.

(** The colour of the last entry read as LED [i]; (0,0,0) when there is
    none. *)
Definition paintedAt (keyColors : list (PropertyKey * (Z * Z * Z))) (i : nat)
  : Z * Z * Z :=
  default (0, 0, 0)
    (snd <$> last (filter (λ entry, ledOf entry.1 = Some i) keyColors)).

(** A map keyed by integers written in plain decimal: its keys are
    distinct, as the keys of an object are, and each is the property key of
    an integer. *)
Definition plainKeys {V} (obj : list (PropertyKey * V)) : Prop :=
  NoDup obj.*1 ∧ ∀ key, key ∈ obj.*1 → ∃ k : Z, key = numberKey k.

(** [entries] lists, in some order, the properties of an object that was
    filled through the integer numbers [k] of [m], each below 2^53 in
    magnitude, so that its property key is [numberKey k]. *)
Definition objectEntries {V} (m : gmap Z V) (entries : list (PropertyKey * V))
  : Prop :=
  map_Forall (λ k _, Z.abs k < 2 ^ 53) m
  ∧ entries ≡ₚ (λ kv, (numberKey kv.1, kv.2)) <$> map_to_list m.

(** Channel 0, 1, 2 of a colour: red, green, blue. *)
Definition channel (plane : nat) (rgb : Z * Z * Z) : Z :=
  match plane with
  | O => rgb.1.1
  | S O => rgb.1.2
  | _ => rgb.2
  end.


Definition byteColor (rgb : Z * Z * Z) : Prop :=
  0 ≤ rgb.1.1 < 256 ∧ 0 ≤ rgb.1.2 < 256 ∧ 0 ≤ rgb.2 < 256.

(** [echo] is what reading back the written frames [W] gives: the same
    frames up to the command field (offset 1). *)
Definition echoOf (W echo : list (list Z)) : Prop :=
  Forall2 (λ f e, ∃ c, e = <[1%nat := c]> f) W echo.

(** ** A sample device *)

(** Ten config fragments as the keyboard answers a read, fragment 0 with
    the apply flag (offset 14) set, fragment 1 with sleep byte 0. *)
Definition sampleEvent (sq : Z) (payload : list Z) : HIDInputReportEvent :=
  {| reportId := 0x13;
     data := [0x44; 0x0A; sq] ++ payload
             ++ [(0x13 + 0x44 + 0x0A + sq + sumZ payload) mod 256] |}.

Definition samplePayloads : list (list Z) :=
  [ [0x0e; 0; 4; 4; 1; 0; 0; 4; 4; 7; 1; 3; 0x20; 3; 0];
    [0x0e; 0; 0; 0; 0; 0; 0; 0; 0; 0; 0; 0; 0; 0; 0];
    [0x0e; 1; 2; 3; 4; 5; 6; 7; 8; 9; 10; 11; 12; 13; 14];
    [0x0e; 0; 0; 0; 0; 0; 0; 0; 0; 0; 0; 0; 0; 0; 0];
    [0x0e; 0xff; 0xff; 4; 0x40; 4; 0x47; 4; 0x47; 4; 0x40; 4; 0x40; 4; 0x47];
    [0x0e; 4; 0x40; 4; 0x40; 4; 0x40; 4; 0x40; 4; 0x40; 4; 0x40; 4; 0x40];
    [0x0e; 4; 0x40; 4; 0x47; 4; 0x47; 4; 0x47; 4; 0x40; 0; 0; 0; 0];
    [0x0e; 0; 0; 0; 0; 0; 0; 0; 0; 0; 0; 0; 0; 0; 0];
    [0x0e; 0; 0; 0; 0; 0; 0; 0; 0; 0; 0; 0; 0; 0; 0];
    [0x06; 0; 0; 0x5a; 0xa5; 0; 0; 0; 0; 0; 0; 0; 0; 0; 0] ].

Definition sampleEvents : list HIDInputReportEvent :=
  imap (λ k p, sampleEvent (Z.of_nat k) p) samplePayloads.

(** The keyboard answers the read with its ten fragments, then stays
    silent. *)
Definition sampleDevice : Device :=
  {| inbox := Some <$> sampleEvents; outbox := []; console := [] |}.

(** The keyboard answers with three fragments only. *)
Definition silentDevice : Device :=
  {| inbox := Some <$> take 3 sampleEvents; outbox := []; console := [] |}.


(** A per-key map with an entry beyond the last LED. *)
Definition strayKeyColors : list (PropertyKey * (Z * Z * Z)) :=
  [(codeUnits "3", (1, 2, 3)); (codeUnits "126", (9, 9, 9))].


Definition sampleOptions : EffectOptions :=
  {| colorRgb := Some (255, 0, 128); colorful := false;
     speed := None; brightness := Some 2 |}.

Definition sampleTemplate : list (list Z) := samplePayloads.
Definition samplePalette : list (list Z) := replicate 2 (zeros 15).
Definition samplePalLast : list Z :=
  [0; 0; 0; 0; 0; 0; 0; 0; 0; 0; 0; 0; 0; 0x5a; 0xa5].

(** ** factoryReset *)

Section FactoryReset.

Variable CFG_TEMPLATE : list (list Z).
Variable PAL_TEMPLATE : list (list Z).
Variable PAL_ZEROS : list Z.
Variable PAL_LAST : list Z.

(** Phase 1: the template payloads with the confirm flag set in fragment 0. *)
Definition factoryReset_cfgFrames : option (list (list Z)) :=
  mapM (λ s,
          let p := newUint8Array (default [] (CFG_TEMPLATE !! s)) in
          let p := if decide (s = 0%nat) then poke p 4 0x01 else p in
          buildFrame CMD_WRITE SUBCMD_CONFIG (Z.of_nat s) p)
       (seq 0 10).

(** Phase 2: the palette templates, handed to [buildFrame] as they are. *)
Definition factoryReset_palFrames : option (list (list Z)) :=
  mapM (λ i,
          let p :=
            if decide (i < length PAL_TEMPLATE)%nat
            then default [] (PAL_TEMPLATE !! i)
            else if decide (i = 36%nat) then PAL_LAST
            else PAL_ZEROS in
          buildFrame CMD_COLOR SUBCMD_PALETTE (Z.of_nat i) p)
       (seq 0 37).

Definition factoryReset : IO unit :=
  log (LogText "── Factory resetting keyboard lighting ──");;
  log (LogText "Phase 1: Writing factory default config...");;
  cfgFrames ← orThrow factoryReset_cfgFrames;
  txBulk cfgFrames "Config";;
  log (LogText "Phase 2: Writing factory default palette...");;
  palFrames ← orThrow factoryReset_palFrames;
  txBulk palFrames "Palette";;
  log (LogText "Phase 3: Saving...");;
  save;;
  log (LogText "✓ Factory reset complete!\n").

End FactoryReset.

(** ** The panels that call the operations *)

Module EffectsPanel.
Section Panel.

(** [hexToRgb] of [./protocol] is not among the sources; the panel takes it
    as it is. *)
Variable hexToRgb : string → Z * Z * Z.

(** The state hooks of the panel. *)
Record State := {
  activeEffect : option Z;
  color : string;
  colorful : bool;
  speed : Z;
  brightness : Z
}.

(** [handleApply]: the arguments of the [onApply] call, if it is made.  A
    [null] or zero [activeEffect] returns at once; for an effect outside
    the table the panel throws on [EFFECTS[activeEffect].color] when it
    renders, so no call is made. *)
Definition handleApply (st : State) : option (Z * EffectOptions) :=
  match activeEffect st with
  | None => None
  | Some n =>
      if decide (n = 0) then None
      else
        match EFFECTS n with
        | None => None
        | Some eff =>
            let hasColor := Protocol.color eff in
            let hasSpeed := Protocol.speed eff in
            let isColorful := if hasColor then colorful st else true in
            Some (n,
                  Build_EffectOptions
                    (if isColorful then None else Some (hexToRgb (color st)))
                    isColorful
                    (if hasSpeed then Some (speed st) else None)
                    (Some (brightness st)))
        end
  end.

End Panel.
End EffectsPanel.

Module PerKeyPanel.
Section Panel.

Variable hexToRgb : string → Z * Z * Z.

(** [toggleKey]: the next selection. *)
Definition toggleKey (ledIdx : Z) (shift : bool) (prev : gset Z) : gset Z :=
  let next := if shift then prev else ∅ in
  if decide (ledIdx ∈ next) then next ∖ {[ledIdx]} else next ∪ {[ledIdx]}.

(** [paintSelected]: the next colour map.  The object is filled through
    numbers only, [next[idx] = rgb], and is held as the map from these
    numbers; [objectEntries] gives its entries. *)
Definition paintSelected (paintColor : string) (selectedKeys : gset Z)
    (prev : gmap Z (Z * Z * Z)) : gmap Z (Z * Z * Z) :=
  let rgb := hexToRgb paintColor in
  set_fold (λ idx next, <[idx := rgb]> next) prev selectedKeys.

End Panel.
End PerKeyPanel.

(** ** More observations *)

(** The receive attempts [readConfig] uses up: one per report and one for
    the timeout that ends the polling, at most [n]. *)
Fixpoint consumed (n : nat) (inb : list (option HIDInputReportEvent)) : nat :=
  match n, inb with
  | S n', Some _ :: rest => S (consumed n' rest)
  | S _, None :: _ => 1
  | _, _ => 0
  end.

(** A frame as the keyboard accepts it: at least 20 bytes, the report id
    first and the checksum of the first 19 bytes at offset 19. *)
Definition validFrame (f : list Z) : Prop :=
  (20 ≤ length f)%nat ∧ f !! 0%nat = Some REPORT_ID
  ∧ f !! 19%nat = Some (checksum f).

(** The header of the config write frame for fragment [k]. *)
Definition configHeader (k : nat) (f : list Z) : Prop :=
  f !! 0%nat = Some REPORT_ID ∧ f !! 1%nat = Some CMD_WRITE
  ∧ f !! 2%nat = Some SUBCMD_CONFIG ∧ f !! 3%nat = Some (Z.of_nat k).

(** The offsets of fragment [sq] that [setEffect] may store into. *)
Definition setEffect_touches (n : Z) (opts : EffectOptions) (sq j : nat)
  : Prop :=
  j = 1%nat ∨ j = 19%nat
  ∨ (sq = 0%nat ∧ (j = 8 ∨ j = 14 ∨ j = 15 ∨ j = 17)%nat)
  ∨ (∃ tgtOff, effectTableLoc n = Some (sq, tgtOff)
       ∧ (j = (tgtOff + 1)%nat ∨ (j = tgtOff ∧ is_Some (brightness opts)))).

(** The templates fit the 15-byte payload of a frame. *)
Definition templatesFit (CFG_TEMPLATE PAL_TEMPLATE : list (list Z))
    (PAL_ZEROS PAL_LAST : list Z) : Prop :=
  Forall (λ p, (length p ≤ 15)%nat) CFG_TEMPLATE
  ∧ Forall (λ p, (length p ≤ 15)%nat) PAL_TEMPLATE
  ∧ (length PAL_ZEROS ≤ 15)%nat ∧ (length PAL_LAST ≤ 15)%nat.

(** The keyboard answers with three fragments, falls silent for one
    receive attempt, and delivers the other seven afterwards. *)
Definition lateDevice : Device :=
  {| inbox := (Some <$> take 3 sampleEvents)
              ++ None :: (Some <$> drop 3 sampleEvents);
     outbox := []; console := [] |}.

(** The template payload of palette slot [i]: the slot's own template, the
    terminal template for slot 36, zeros for a slot without template. *)
Definition paletteSlot (PAL_TEMPLATE : list (list Z)) (PAL_ZEROS PAL_LAST : list Z)
    (i : nat) : list Z :=
  if decide (i < length PAL_TEMPLATE)%nat then default [] (PAL_TEMPLATE !! i)
  else if decide (i = 36%nat) then PAL_LAST
  else PAL_ZEROS.

(** * Properties *)

Lemma encodeSpeedByte_arith (s : Z) (c : bool) :
  encodeSpeedByte s c = 16 * s + (if c then 7 else 0).
Proof.
  unfold encodeSpeedByte. rewrite Z.shiftl_mul_pow2 by lia.
  change (2 ^ 4) with 16.
  assert (Hdisj : Z.land (s * 16) (if c then 7 else 0) = 0).
  { destruct c; [|apply Z.land_0_r].
    change 7 with (Z.ones 3). rewrite Z.land_ones by lia.
    change (2 ^ 3) with 8. Z.div_mod_to_equations. lia. }
  rewrite <- Z.lxor_lor, <- Z.add_nocarry_lxor by exact Hdisj. lia.
Qed.

Lemma decodeSpeedByte_arith (b : Z) :
  decodeSpeedByte b = {| sb_speed := b / 16; sb_colorful := b mod 16 =? 7 |}.
Proof.
  unfold decodeSpeedByte. rewrite Z.shiftr_div_pow2 by lia.
  change 0x0f with (Z.ones 4). rewrite Z.land_ones by lia. reflexivity.
Qed.

(** C8. For every speed in 0..4 and either colour mode, decoding the encoded
    speed byte gives back the speed and the mode; the encoder puts the speed
    in the high nibble and 0x7 (colorful) or 0x0 (single colour) in the low
    nibble. *)
Theorem speed_byte_round_trip (s : Z) (c : bool) :
  0 ≤ s ≤ 4 →
  decodeSpeedByte (encodeSpeedByte s c) = {| sb_speed := s; sb_colorful := c |}
  ∧ encodeSpeedByte s c / 16 = s
  ∧ encodeSpeedByte s c mod 16 = (if c then 0x7 else 0x0)
  ∧ 0 ≤ encodeSpeedByte s c < 256.
Proof.
  intros Hs. rewrite decodeSpeedByte_arith, encodeSpeedByte_arith.
  assert (Hq : (16 * s + (if c then 7 else 0)) / 16 = s)
    by (destruct c; Z.div_mod_to_equations; lia).
  assert (Hr : (16 * s + (if c then 7 else 0)) mod 16 = if c then 7 else 0)
    by (destruct c; Z.div_mod_to_equations; lia).
  rewrite Hq, Hr. repeat split; try (destruct c; lia).
  f_equal. by destruct c.
Qed.

Lemma speed_byte_round_trip_witness :
  decodeSpeedByte (encodeSpeedByte 4 true) = {| sb_speed := 4; sb_colorful := true |}
  ∧ encodeSpeedByte 4 true / 16 = 4
  ∧ encodeSpeedByte 4 true mod 16 = 0x7
  ∧ 0 ≤ encodeSpeedByte 4 true < 256.
Proof. apply (speed_byte_round_trip 4 true). lia. Defined.

(** ** Running the I/O layer *)

Lemma buildFrame_readFrame :
  buildFrame CMD_READ SUBCMD_CONFIRM 0 (zeros 15) = Some readFrame.
Proof. reflexivity. Qed.

Lemma buildFrame_saveFrame :
  buildFrame CMD_SAVE SUBCMD_CONFIRM 0 savePayload = Some saveFrame.
Proof. reflexivity. Qed.

Lemma IO_bind_run {A B} (m : IO A) (k : A → IO B) dev a dev' :
  m dev = (Done a, dev') → (m ≫= k) dev = k a dev'.
Proof. intros H. unfold mbind, IO_bind. by rewrite H. Qed.

Lemma txRx_run frame dev :
  ∃ echo dev', txRx frame dev = (Done echo, dev')
               ∧ outbox dev' = outbox dev ++ [frame].
Proof.
  unfold txRx, mbind, IO_bind, sendReport, readReport, log, mret, IO_ret.
  cbn. destruct (inbox dev) as [|o rest]; cbn; eauto.
Qed.

Lemma txBulk_loop_run frames echoes dev :
  ∃ echoes' dev', txBulk_loop frames echoes dev = (Done echoes', dev')
                  ∧ outbox dev' = outbox dev ++ frames.
Proof.
  revert echoes dev. induction frames as [|frame rest IH]; intros echoes dev.
  - exists echoes, dev. by rewrite app_nil_r.
  - destruct (txRx_run frame dev) as (echo & dev1 & Hrun & Hout).
    cbn [txBulk_loop]. rewrite (IO_bind_run _ _ _ _ _ Hrun).
    destruct (IH (match echo with Some e => echoes ++ [e] | None => echoes end)
                 dev1) as (echoes' & dev' & Hrun' & Hout').
    exists echoes', dev'. split; [exact Hrun'|].
    rewrite Hout', Hout, <- app_assoc. reflexivity.
Qed.

Lemma txBulk_run frames label dev :
  ∃ echoes dev', txBulk frames label dev = (Done echoes, dev')
                 ∧ outbox dev' = outbox dev ++ frames.
Proof.
  destruct (txBulk_loop_run frames [] dev) as (echoes & dev1 & Hrun & Hout).
  unfold txBulk. rewrite (IO_bind_run _ _ _ _ _ Hrun).
  unfold mbind, IO_bind, log, mret, IO_ret. cbn. eauto.
Qed.

Lemma save_run dev :
  ∃ echo dev', save dev = (Done echo, dev')
               ∧ outbox dev' = outbox dev ++ [saveFrame].
Proof.
  unfold save. rewrite buildFrame_saveFrame.
  rewrite (IO_bind_run _ _ dev saveFrame dev) by reflexivity.
  apply txRx_run.
Qed.

Lemma readConfig_loop_run n config dev :
  ∃ dev', readConfig_loop n config dev
          = (Done (foldl storeFragment config (polled n (inbox dev))), dev')
          ∧ outbox dev' = outbox dev.
Proof.
  revert config dev. induction n as [|n IH]; intros config dev.
  - exists dev. done.
  - cbn [readConfig_loop]. unfold mbind, IO_bind, readReport.
    destruct dev as [inb out con]. cbn [inbox outbox console].
    destruct inb as [|[e|] rest];
      [by eexists | | by eexists].
    cbn [fmap option_fmap option_map polled foldl].
    generalize (fullReport e). intros r.
    unfold storeFragment at 2.
    destruct (isConfigFragment r); cbn [andb];
      [destruct ((0 <=? peek r 3) && (peek r 3 <? 10))|].
    + unfold log.
      destruct (IH (<[Z.to_nat (peek r 3):=Some r]> config)
                  {| inbox := rest; outbox := out;
                     console := con ++ [LogCfg (peek r 3) r] |})
        as (dev' & Hrun & Hout).
      exists dev'. split; [exact Hrun | exact Hout].
    + apply (IH config {| inbox := rest; outbox := out; console := con |}).
    + apply (IH config {| inbox := rest; outbox := out; console := con |}).
Qed.

Lemma sendReport_then {A} frame (k : IO A) dev :
  (sendReport frame;; k) dev
  = k {| inbox := inbox dev; outbox := outbox dev ++ [frame];
         console := console dev ++ [LogTX frame] |}.
Proof. reflexivity. Qed.

Lemma readConfig_run dev :
  ∃ dev', readConfig dev = (Done (configRead dev), dev')
          ∧ outbox dev' = outbox dev ++ [readFrame].
Proof.
  unfold readConfig. rewrite buildFrame_readFrame.
  rewrite (IO_bind_run _ _ dev readFrame dev) by reflexivity.
  rewrite sendReport_then.
  destruct (readConfig_loop_run 12 (replicate 10 None)
    {| inbox := inbox dev; outbox := outbox dev ++ [readFrame];
       console := console dev ++ [LogTX readFrame] |}) as (dev' & Hrun & Hout).
  exists dev'. split; [exact Hrun | exact Hout].
Qed.

(** ** The read phase *)

Lemma isConfigFragment_true r :
  isConfigFragment r = true ↔
  (20 ≤ length r)%nat ∧ r !! 0%nat = Some REPORT_ID
  ∧ r !! 1%nat = Some CMD_READ ∧ r !! 2%nat = Some SUBCMD_CONFIG.
Proof.
  unfold isConfigFragment, peek.
  rewrite !andb_true_iff, bool_decide_eq_true, !Z.eqb_eq.
  split.
  - intros [[[Hlen H0] H1] H2].
    destruct (lookup_lt_is_Some_2 r 0) as [b0 E0]; [lia|].
    destruct (lookup_lt_is_Some_2 r 1) as [b1 E1]; [lia|].
    destruct (lookup_lt_is_Some_2 r 2) as [b2 E2]; [lia|].
    rewrite E0, E1, E2 in *. cbn in *. by subst.
  - intros (Hlen & -> & -> & ->). done.
Qed.

Lemma storeFragment_accepts k r config :
  (k < 10)%nat → FragmentFor k r →
  storeFragment config r = <[k := Some r]> config.
Proof.
  intros Hk (Hlen & H0 & H1 & H2 & H3). unfold storeFragment.
  assert (Hp : peek r 3 = Z.of_nat k) by (unfold peek; by rewrite H3).
  rewrite (proj2 (isConfigFragment_true r)) by done.
  rewrite Hp, Nat2Z.id.
  replace ((0 <=? Z.of_nat k) && (Z.of_nat k <? 10)) with true; [done|].
  symmetry. apply andb_true_iff. split; [apply Z.leb_le | apply Z.ltb_lt]; lia.
Qed.

Lemma storeFragment_other k r config :
  (k < 10)%nat → ¬ FragmentFor k r →
  storeFragment config r !! k = config !! k.
Proof.
  intros Hk Hno. unfold storeFragment.
  destruct (isConfigFragment r) eqn:Hfrag; [|done].
  destruct ((0 <=? peek r 3) && (peek r 3 <? 10)) eqn:Hrange; [|done].
  cbn [andb]. apply list_lookup_insert_ne. intros <-. apply Hno.
  apply isConfigFragment_true in Hfrag as (Hlen & H0 & H1 & H2).
  apply andb_true_iff in Hrange as [Hlo Hhi].
  apply Z.leb_le in Hlo. apply Z.ltb_lt in Hhi.
  repeat split; try done.
  destruct (lookup_lt_is_Some_2 r 3) as [b3 E3]; [lia|].
  unfold peek in *. rewrite E3 in *. cbn in *. f_equal. lia.
Qed.

Lemma length_storeFragment config r :
  length (storeFragment config r) = length config.
Proof.
  unfold storeFragment. destruct (_ && _); [apply length_insert | done].
Qed.

Lemma length_foldl_storeFragment rs config :
  length (foldl storeFragment config rs) = length config.
Proof.
  revert config. induction rs as [|r rs IH]; intros config; [done|].
  cbn. by rewrite IH, length_storeFragment.
Qed.

Lemma foldl_storeFragment_lookup rs config k :
  (k < 10)%nat → length config = 10%nat →
  foldl storeFragment config rs !! k
  = match last (filter (FragmentFor k) rs) with
    | Some r => Some (Some r)
    | None => config !! k
    end.
Proof.
  intros Hk Hlen. induction rs as [|r rs IH] using rev_ind; [done|].
  rewrite foldl_app, filter_app, last_app. cbn [foldl].
  destruct (decide (FragmentFor k r)) as [Hyes|Hno].
  - rewrite (filter_cons_True _ _ _ Hyes), filter_nil. cbn [last].
    rewrite (storeFragment_accepts k) by done.
    apply list_lookup_insert_eq.
    rewrite length_foldl_storeFragment. lia.
  - rewrite (filter_cons_False _ _ _ Hno), filter_nil. cbn [last].
    rewrite storeFragment_other by done. exact IH.
Qed.

Lemma length_polled n inb : (length (polled n inb) ≤ n)%nat.
Proof.
  revert inb. induction n as [|n IH]; intros [|[e|] rest]; cbn; try lia.
  specialize (IH rest). lia.
Qed.

Lemma length_configRead dev : length (configRead dev) = 10%nat.
Proof. unfold configRead. by rewrite length_foldl_storeFragment. Qed.

Lemma gotConfig_filled config :
  gotConfig config = false ↔ (filled config < length config)%nat.
Proof.
  unfold gotConfig, filled. induction config as [|c config IH].
  - cbn. split; [done | lia].
  - cbn [forallb length]. destruct c as [r|].
    + rewrite filter_cons_True by done.
      rewrite bool_decide_eq_true_2 by done. cbn [andb length].
      rewrite IH. lia.
    + rewrite filter_cons_False by (by intros [? ?]).
      rewrite bool_decide_eq_false_2 by (by intros [? ?]). cbn [andb].
      pose proof (length_filter is_Some config). split; [lia | done].
Qed.

(** C3. [readConfig] sends the one READ/CONFIRM frame with sequence 0 and
    an all-zero payload, then makes at most 12 receive attempts.  Slot [k]
    (0..9) of its result holds the last polled fragment (a report of at least
    20 bytes under the report id) whose command is READ, whose subcommand is
    CONFIG and whose sequence field is [k], or nothing when there is none;
    there are exactly 10 slots, so any other sequence is dropped; and the
    result is incomplete exactly when fewer than 10 slots are filled. *)
Theorem readConfig_collects (dev : Device) :
  buildFrame CMD_READ SUBCMD_CONFIRM 0 (zeros 15) = Some readFrame
  ∧ (∃ dev', readConfig dev = (Done (configRead dev), dev')
             ∧ outbox dev' = outbox dev ++ [readFrame])
  ∧ (length (polled 12 (inbox dev)) ≤ 12)%nat
  ∧ length (configRead dev) = 10%nat
  ∧ (∀ k, (k < 10)%nat →
       configRead dev !! k
       = Some (last (filter (FragmentFor k) (polled 12 (inbox dev)))))
  ∧ (gotConfig (configRead dev) = false ↔ (filled (configRead dev) < 10)%nat).
Proof.
  split; [reflexivity|]. split; [apply readConfig_run|].
  split; [apply length_polled|]. split; [apply length_configRead|]. split.
  - intros k Hk. unfold configRead.
    rewrite foldl_storeFragment_lookup by (done || by rewrite length_replicate).
    destruct (last _); [done|]. by apply lookup_replicate_2.
  - rewrite gotConfig_filled, length_configRead. done.
Qed.

Lemma fullReport_bytes e : Forall (λ b, 0 ≤ b < 256) (fullReport e).
Proof.
  unfold fullReport, newUint8Array, wrap8. constructor.
  - apply Z.mod_pos_bound. lia.
  - apply Forall_fmap, Forall_true. intros b. cbn. apply Z.mod_pos_bound. lia.
Qed.

Lemma polled_bytes n inb :
  Forall (Forall (λ b, 0 ≤ b < 256)) (polled n inb).
Proof.
  revert inb. induction n as [|n IH]; intros [|[e|] rest]; cbn; try done.
  constructor; [apply fullReport_bytes | apply IH].
Qed.

Lemma gotConfig_lookup config k :
  gotConfig config = true → (k < length config)%nat →
  ∃ r, config !! k = Some (Some r).
Proof.
  unfold gotConfig. intros Hall Hk.
  destruct (lookup_lt_is_Some_2 config k Hk) as [c Hc].
  rewrite forallb_forall in Hall. specialize (Hall c).
  rewrite <- list_elem_of_In in Hall.
  apply bool_decide_eq_true in Hall as [r ->];
    [eauto | by eapply list_elem_of_lookup_2].
Qed.

(** Every slot of a complete read holds a well-formed fragment. *)
Lemma configRead_fragment dev k :
  gotConfig (configRead dev) = true → (k < 10)%nat →
  ∃ r, configRead dev !! k = Some (Some r)
       ∧ fragment (configRead dev) k = r
       ∧ FragmentFor k r ∧ Forall (λ b, 0 ≤ b < 256) r.
Proof.
  intros Hgot Hk.
  destruct (gotConfig_lookup _ k Hgot) as [r Hr];
    [by rewrite length_configRead|].
  exists r. split; [done|]. split; [unfold fragment; by rewrite Hr|].
  unfold configRead in Hr.
  rewrite foldl_storeFragment_lookup in Hr
    by (done || by rewrite length_replicate).
  destruct (last _) as [r'|] eqn:Hlast.
  - injection Hr as ->. apply last_Some_elem_of in Hlast.
    apply list_elem_of_filter in Hlast as [Hfrag Hin]. split; [done|].
    pose proof (polled_bytes 12 (inbox dev)) as Hall.
    rewrite Forall_forall in Hall. by apply Hall.
  - by rewrite lookup_replicate_2 in Hr.
Qed.

(** ** Stores into a frame *)

Lemma length_poke f i v : length (poke f i v) = length f.
Proof. apply length_insert. Qed.

Lemma poke_lookup_ne f i j v : i ≠ j → poke f i v !! j = f !! j.
Proof. apply list_lookup_insert_ne. Qed.

Lemma poke_lookup_eq f i v :
  (i < length f)%nat → poke f i v !! i = Some (wrap8 v).
Proof. apply list_lookup_insert_eq. Qed.

Lemma checksum_poke_19 f v : checksum (poke f 19 v) = checksum f.
Proof. unfold checksum, poke. by rewrite take_insert_ge. Qed.

Lemma wrap8_byte b : 0 ≤ b < 256 → wrap8 b = b.
Proof. intros. unfold wrap8. by apply Z.mod_small. Qed.

Lemma wrap8_range v : 0 ≤ wrap8 v < 256.
Proof. unfold wrap8. apply Z.mod_pos_bound. lia. Qed.

Lemma wrap8_idemp v : wrap8 (wrap8 v) = wrap8 v.
Proof. apply wrap8_byte, wrap8_range. Qed.

Lemma checksum_range f : 0 ≤ checksum f < 256.
Proof. unfold checksum. apply Z.mod_pos_bound. lia. Qed.

(** Rewrites the lookups of a stored-into frame at a known index. *)
Ltac poke_lookup :=
  repeat first
    [ rewrite poke_lookup_ne by lia
    | rewrite poke_lookup_eq by (rewrite ?length_poke; lia) ].

Lemma sent_outbox {A} (m : IO A) dev frames :
  outbox (m dev).2 = outbox dev ++ frames → sent m dev = frames.
Proof. intros H. unfold sent. rewrite H. apply drop_app_length. Qed.

(** ** setSleepTimer *)

Lemma log_then {A} msg (k : IO A) dev :
  (log msg;; k) dev
  = k {| inbox := inbox dev; outbox := outbox dev;
         console := console dev ++ [msg] |}.
Proof. reflexivity. Qed.

Lemma orThrow_Some {A B} (a : A) (k : A → IO B) dev :
  (orThrow (Some a) ≫= k) dev = k a dev.
Proof. reflexivity. Qed.

Lemma orThrow_None {A B} (k : A → IO B) dev :
  (orThrow None ≫= k) dev = (Thrown, dev).
Proof. reflexivity. Qed.

(** Steps through a transaction: log lines, the read phase, bulk writes and
    the save, keeping the equation of each outbox. *)
Ltac io_step :=
  first
    [ rewrite log_then; cbn [inbox outbox console]
    | rewrite orThrow_Some
    | rewrite orThrow_None
    | match goal with
      | |- context [(readConfig ≫= ?k) ?d] =>
          let dev1 := fresh "dev" in
          let Hrun := fresh "Hread" in
          let Hout := fresh "Hout" in
          destruct (readConfig_run d) as (dev1 & Hrun & Hout);
          rewrite (IO_bind_run _ k _ _ _ Hrun);
          cbn [inbox outbox console] in Hout
      | |- context [(txBulk ?fs ?l ≫= ?k) ?d] =>
          let echoes := fresh "echoes" in
          let dev1 := fresh "dev" in
          let Hrun := fresh "Hbulk" in
          let Hout := fresh "Hout" in
          destruct (txBulk_run fs l d) as (echoes & dev1 & Hrun & Hout);
          rewrite (IO_bind_run _ k _ _ _ Hrun);
          cbn [inbox outbox console] in Hout
      | |- context [(save ≫= ?k) ?d] =>
          let echo := fresh "echo" in
          let dev1 := fresh "dev" in
          let Hrun := fresh "Hsave" in
          let Hout := fresh "Hout" in
          destruct (save_run d) as (echo & dev1 & Hrun & Hout);
          rewrite (IO_bind_run _ k _ _ _ Hrun);
          cbn [inbox outbox console] in Hout
      end ].

(** Unfolds the recorded outbox equations in the goal. *)
Ltac io_outbox :=
  cbn [fst snd outbox];
  repeat match goal with
         | H : outbox ?d = _ |- context [outbox ?d] => rewrite H
         end;
  rewrite <- ?app_assoc.

Lemma setSleepTimer_run minutes dev :
  ∃ dev', setSleepTimer minutes dev = (Done (), dev')
    ∧ if gotConfig (configRead dev)
      then outbox dev' = outbox dev ++ readFrame
             :: setSleepTimer_writeFrames (configRead dev) (minutes * 2)
             ++ [saveFrame]
      else outbox dev' = outbox dev ++ [readFrame]
           ∧ last (console dev') = Some (LogText "ERROR: Could not read config").
Proof.
  unfold setSleepTimer. do 2 io_step. io_step.
  match goal with H : readConfig ?d = _ |- _ =>
    change (configRead d) with (configRead dev) in * end.
  destruct (gotConfig (configRead dev)); cbn [negb].
  - do 2 io_step. io_step. io_step. io_step.
    unfold log. eexists. split; [reflexivity|]. by io_outbox.
  - unfold log. eexists. split; [reflexivity|]. cbn [outbox console].
    split; [done | apply last_snoc].
Qed.

Lemma setSleepTimer_fromRead_length b s r :
  length (setSleepTimer_fromRead b s r) = length r.
Proof.
  unfold setSleepTimer_fromRead. repeat case_decide; by rewrite !length_poke.
Qed.

Lemma setSleepTimer_writeFrames_lookup config b s :
  (s < 10)%nat →
  setSleepTimer_writeFrames config b !! s
  = Some (setSleepTimer_fromRead b s (fragment config s)).
Proof.
  intros Hs. unfold setSleepTimer_writeFrames.
  by rewrite list_lookup_fmap, lookup_seq_lt.
Qed.

(** C10. [setSleepTimer] does not validate its argument: for any integer
    [minutes] and a complete read it sends the ten config frames and the save
    frame, and the frame written for fragment 1 carries [(2 * minutes) mod 256]
    at offset 15. *)
Theorem setSleepTimer_any_minutes (dev : Device) (minutes : Z) :
  gotConfig (configRead dev) = true →
  ∃ dev' W w,
    setSleepTimer minutes dev = (Done (), dev')
    ∧ outbox dev' = outbox dev ++ readFrame :: W ++ [saveFrame]
    ∧ length W = 10%nat
    ∧ W !! 1%nat = Some w
    ∧ w !! 15%nat = Some ((2 * minutes) mod 256).
Proof.
  intros Hgot.
  destruct (setSleepTimer_run minutes dev) as (dev' & Hrun & Hout).
  rewrite Hgot in Hout.
  destruct (configRead_fragment dev 1 Hgot) as (r & _ & Hr & Hfrag & _); [lia|].
  destruct Hfrag as (Hlen & _).
  eexists dev', _, _. split; [exact Hrun|]. split; [exact Hout|].
  split; [unfold setSleepTimer_writeFrames; by rewrite length_fmap, length_seq|].
  split; [by apply setSleepTimer_writeFrames_lookup; lia|].
  rewrite Hr. unfold setSleepTimer_fromRead. cbv zeta.
  repeat case_decide; try lia.
  poke_lookup. unfold wrap8. f_equal. f_equal. lia.
Qed.

Lemma setSleepTimer_any_minutes_witness :
  ∃ dev' W w,
    setSleepTimer 7 sampleDevice = (Done (), dev')
    ∧ outbox dev' = outbox sampleDevice ++ readFrame :: W ++ [saveFrame]
    ∧ length W = 10%nat
    ∧ W !! 1%nat = Some w
    ∧ w !! 15%nat = Some ((2 * 7) mod 256).
Proof. apply (setSleepTimer_any_minutes sampleDevice 7). reflexivity. Defined.

Section OperationRuns.

Variable CFG_TEMPLATE : list (list Z).
Variable PAL_TEMPLATE : list (list Z).
Variable PAL_ZEROS : list Z.
Variable PAL_LAST : list Z.

Local Abbreviation setEffect' :=
  (setEffect CFG_TEMPLATE PAL_TEMPLATE PAL_ZEROS PAL_LAST).
Local Abbreviation setEffect_writeFrames' := (setEffect_writeFrames CFG_TEMPLATE).
Local Abbreviation setEffect_palFrames' :=
  (setEffect_palFrames PAL_TEMPLATE PAL_ZEROS PAL_LAST).
Local Abbreviation applyPerKey' := (applyPerKey CFG_TEMPLATE).
Local Abbreviation applyPerKey_writeFrames' :=
  (applyPerKey_writeFrames CFG_TEMPLATE).

Lemma setEffect_run n eff opts dev :
  EFFECTS n = Some eff →
  let out := setEffect' n opts dev in
  match setEffect_writeFrames' (configRead dev) n opts with
  | None => out.1 = Thrown ∧ outbox out.2 = outbox dev ++ [readFrame]
  | Some W =>
      match setEffect_palFrames' opts with
      | None => out.1 = Thrown ∧ outbox out.2 = outbox dev ++ readFrame :: W
      | Some P =>
          out.1 = Done ()
          ∧ outbox out.2 = outbox dev ++ readFrame :: W ++ P ++ [saveFrame]
      end
  end.
Proof.
  intros Heff. cbv zeta. unfold setEffect. rewrite Heff.
  do 2 io_step. io_step.
  match goal with H : readConfig ?d = _ |- _ =>
    change (configRead d) with (configRead dev) in * end.
  assert (Hpre : ∀ (k : IO unit) d,
    ((if gotConfig (configRead dev)
      then log (LogCurrentEffect (peek (fragment (configRead dev) 0) 15))
      else log (LogText "  Using template"));; k) d
    = k {| inbox := inbox d; outbox := outbox d;
           console := console d ++
             [if gotConfig (configRead dev)
              then LogCurrentEffect (peek (fragment (configRead dev) 0) 15)
              else LogText "  Using template"] |}).
  { intros k d. by destruct (gotConfig (configRead dev)). }
  rewrite Hpre. cbn [inbox outbox console]. io_step.
  destruct (setEffect_writeFrames' (configRead dev) n opts) as [W|].
  - io_step. io_step. io_step.
    destruct (setEffect_palFrames' opts) as [P|].
    + io_step. io_step. io_step. io_step. unfold log.
      split; [done|]. by io_outbox.
    + io_step. split; [done|]. by io_outbox.
  - io_step. split; [done|]. by io_outbox.
Qed.

Lemma applyPerKey_run keyColors dev :
  let out := applyPerKey' keyColors dev in
  match applyPerKey_writeFrames' (configRead dev) with
  | None => out.1 = Thrown ∧ outbox out.2 = outbox dev ++ [readFrame]
  | Some W =>
      match applyPerKey_perkeyFrames keyColors with
      | None => out.1 = Thrown ∧ outbox out.2 = outbox dev ++ readFrame :: W
      | Some K =>
          out.1 = Done ()
          ∧ outbox out.2 = outbox dev ++ readFrame :: W ++ K ++ [saveFrame]
      end
  end.
Proof.
  cbv zeta. unfold applyPerKey. do 2 io_step. io_step.
  match goal with H : readConfig ?d = _ |- _ =>
    change (configRead d) with (configRead dev) in * end.
  io_step.
  destruct (applyPerKey_writeFrames' (configRead dev)) as [W|].
  - io_step. io_step. io_step.
    destruct (applyPerKey_perkeyFrames keyColors) as [K|].
    + io_step. io_step. io_step. io_step. unfold log.
      split; [done|]. by io_outbox.
    + io_step. split; [done|]. by io_outbox.
  - io_step. split; [done|]. by io_outbox.
Qed.

Lemma mapM_total {A B} (f : A → B) (l : list A) :
  mapM (λ x, Some (f x)) l = Some (f <$> l).
Proof. induction l as [|x l IH]; [done|]. cbn. by rewrite IH. Qed.

Lemma setEffect_writeFrames_read config n opts :
  gotConfig config = true →
  setEffect_writeFrames' config n opts
  = Some ((λ sq, setEffect_fromRead n opts (effectTableLoc n) sq
                   (fragment config sq)) <$> seq 0 10).
Proof.
  intros Hgot. unfold setEffect_writeFrames. rewrite Hgot. apply mapM_total.
Qed.

Lemma setEffect_writeFrames_template config n opts :
  gotConfig config = false →
  setEffect_writeFrames' config n opts
  = mapM (setEffect_fromTemplate CFG_TEMPLATE n opts (effectTableLoc n))
         (seq 0 10).
Proof. intros Hgot. unfold setEffect_writeFrames. by rewrite Hgot. Qed.

Lemma applyPerKey_writeFrames_read config :
  gotConfig config = true →
  applyPerKey_writeFrames' config
  = Some ((λ sq, applyPerKey_fromRead sq (fragment config sq)) <$> seq 0 10).
Proof.
  intros Hgot. unfold applyPerKey_writeFrames. rewrite Hgot. apply mapM_total.
Qed.

Lemma applyPerKey_writeFrames_template config :
  gotConfig config = false →
  applyPerKey_writeFrames' config
  = mapM (applyPerKey_fromTemplate CFG_TEMPLATE) (seq 0 10).
Proof. intros Hgot. unfold applyPerKey_writeFrames. by rewrite Hgot. Qed.

Lemma buildFrame_is_Some cmd sub sq payload :
  (length payload ≤ 15)%nat → is_Some (buildFrame cmd sub sq payload).
Proof. intros H. unfold buildFrame. rewrite decide_True by done. eauto. Qed.

Lemma setEffect_fromTemplate_is_Some n opts tgt sq :
  Forall (λ p, (length p ≤ 15)%nat) CFG_TEMPLATE →
  is_Some (setEffect_fromTemplate CFG_TEMPLATE n opts tgt sq).
Proof.
  intros Hall. unfold setEffect_fromTemplate. apply buildFrame_is_Some.
  assert (Hlen : (length (newUint8Array (default [] (CFG_TEMPLATE !! sq)))
                  ≤ 15)%nat).
  { unfold newUint8Array. rewrite length_fmap.
    destruct (CFG_TEMPLATE !! sq) as [p|] eqn:Hp; cbn; [|lia].
    rewrite Forall_lookup in Hall. by apply (Hall sq). }
  destruct tgt as [[tgtSeq tgtOff]|]; repeat case_decide;
    repeat case_match; by rewrite ?length_poke.
Qed.

Lemma applyPerKey_fromTemplate_is_Some sq :
  Forall (λ p, (length p ≤ 15)%nat) CFG_TEMPLATE →
  is_Some (applyPerKey_fromTemplate CFG_TEMPLATE sq).
Proof.
  intros Hall. unfold applyPerKey_fromTemplate. apply buildFrame_is_Some.
  assert (Hlen : (length (newUint8Array (default [] (CFG_TEMPLATE !! sq)))
                  ≤ 15)%nat).
  { unfold newUint8Array. rewrite length_fmap.
    destruct (CFG_TEMPLATE !! sq) as [p|] eqn:Hp; cbn; [|lia].
    rewrite Forall_lookup in Hall. by apply (Hall sq). }
  case_decide; by rewrite ?length_poke.
Qed.


End OperationRuns.

(** ** The apply flag *)

Lemma effectTableLoc_Some n tgtSeq tgtOff :
  effectTableLoc n = Some (tgtSeq, tgtOff) →
  1 ≤ n ≤ 18 ∧ (4 ≤ tgtSeq ≤ 6)%nat ∧ (5 ≤ tgtOff ≤ 17)%nat.
Proof.
  unfold effectTableLoc. repeat case_decide; intros [= <- <-]; lia.
Qed.

Lemma setEffect_fromRead_apply_flag n opts r :
  (20 ≤ length r)%nat →
  setEffect_fromRead n opts (effectTableLoc n) 0 r !! 14%nat = Some 0x00.
Proof.
  intros Hlen. unfold setEffect_fromRead. rewrite decide_True by done.
  destruct (effectTableLoc n) as [[tgtSeq tgtOff]|] eqn:Hloc.
  - apply effectTableLoc_Some in Hloc. rewrite decide_False by lia.
    by poke_lookup.
  - by poke_lookup.
Qed.

Lemma applyPerKey_fromRead_apply_flag r :
  (20 ≤ length r)%nat → applyPerKey_fromRead 0 r !! 14%nat = Some 0x00.
Proof.
  intros Hlen. unfold applyPerKey_fromRead. rewrite decide_True by done.
  by poke_lookup.
Qed.

(** The two sibling operations clear the apply flag of whatever was read. *)
Lemma siblings_clear_apply_flag CFG_TEMPLATE dev :
  gotConfig (configRead dev) = true →
  (∀ n opts, ∃ W f,
      setEffect_writeFrames CFG_TEMPLATE (configRead dev) n opts = Some W
      ∧ W !! 0%nat = Some f ∧ f !! 14%nat = Some 0x00)
  ∧ (∃ W f,
      applyPerKey_writeFrames CFG_TEMPLATE (configRead dev) = Some W
      ∧ W !! 0%nat = Some f ∧ f !! 14%nat = Some 0x00).
Proof.
  intros Hgot.
  destruct (configRead_fragment dev 0 Hgot) as (r & _ & Hr & Hfrag & _); [lia|].
  destruct Hfrag as (Hlen & _). split.
  - intros n opts. eexists _, _.
    split; [by apply setEffect_writeFrames_read|].
    split; [by rewrite list_lookup_fmap|].
    rewrite Hr. by apply setEffect_fromRead_apply_flag.
  - eexists _, _. split; [by apply applyPerKey_writeFrames_read|].
    split; [by rewrite list_lookup_fmap|].
    rewrite Hr. by apply applyPerKey_fromRead_apply_flag.
Qed.

(** C1. On the sample device, whose fragment 0 is read with the apply flag
    (offset 14) at 0x01, the fragment-0 frame that [setEffect] and
    [applyPerKey] send has 0x00 at offset 14, but the one [setSleepTimer]
    sends still has 0x01 there. *)
Theorem apply_flag_on_sample_device :
  fragment (configRead sampleDevice) 0 !! 14%nat = Some 0x01
  ∧ (sent (setEffect sampleTemplate samplePalette (zeros 15) samplePalLast 2
             {| colorRgb := None; colorful := false;
                speed := None; brightness := None |})
          sampleDevice !! 1%nat) ≫= (.!! 14%nat) = Some 0x00
  ∧ (sent (applyPerKey sampleTemplate []) sampleDevice !! 1%nat)
      ≫= (.!! 14%nat) = Some 0x00
  ∧ (sent (setSleepTimer 10) sampleDevice !! 1%nat) ≫= (.!! 14%nat)
    = Some 0x01.
Proof. vm_compute. done. Qed.

(** ** The sleep byte *)

Lemma lookup_after_readFrame {A} (x : A) (W rest : list A) k :
  (k < length W)%nat → (x :: W ++ rest) !! S k = W !! k.
Proof. intros Hk. change ((W ++ rest) !! k = W !! k). by apply lookup_app_l. Qed.

Lemma setSleepTimer_sent dev minutes :
  gotConfig (configRead dev) = true →
  sent (setSleepTimer minutes) dev
  = readFrame :: setSleepTimer_writeFrames (configRead dev) (minutes * 2)
    ++ [saveFrame].
Proof.
  intros Hgot. apply sent_outbox.
  destruct (setSleepTimer_run minutes dev) as (dev' & Hrun & Hout).
  rewrite Hgot in Hout. by rewrite Hrun.
Qed.

(** C5, as the code has it.  [setSleepTimer 10] on a complete read whose
    fragment 1 has 0x00 at offset 15 sends for fragment 1 a frame of the same
    length with 0x14 at offset 15, WRITE (0x04) at the command offset 1, its
    recomputed checksum at offset 19, and every other byte as read. *)
Theorem setSleepTimer_10_fragment_1 (dev : Device) (r : list Z) :
  gotConfig (configRead dev) = true →
  configRead dev !! 1%nat = Some (Some r) →
  r !! 15%nat = Some 0x00 →
  ∃ w, sent (setSleepTimer 10) dev !! 2%nat = Some w
       ∧ length w = length r
       ∧ w !! 15%nat = Some 0x14
       ∧ w !! 1%nat = Some CMD_WRITE
       ∧ w !! 19%nat = Some (checksum w)
       ∧ ∀ j, j ≠ 1%nat → j ≠ 15%nat → j ≠ 19%nat → w !! j = r !! j.
Proof.
  intros Hgot Hr H15.
  destruct (configRead_fragment dev 1 Hgot) as (r' & Hr' & Hfr & Hfrag & _);
    [lia|].
  assert (r' = r) as -> by congruence. destruct Hfrag as (Hlen & _).
  exists (setSleepTimer_fromRead 20 1 r).
  split.
  { rewrite setSleepTimer_sent by done.
    rewrite lookup_after_readFrame
      by (unfold setSleepTimer_writeFrames;
          rewrite length_fmap, length_seq; lia).
    rewrite setSleepTimer_writeFrames_lookup by lia. by rewrite Hfr. }
  split; [apply setSleepTimer_fromRead_length|].
  unfold setSleepTimer_fromRead. cbv zeta.
  do 2 (case_decide; try lia).
  split; [by poke_lookup|]. split; [by poke_lookup|].
  split.
  - poke_lookup. rewrite checksum_poke_19.
    f_equal. apply wrap8_byte, checksum_range.
  - intros j H1 H2 H3. unfold poke.
    by rewrite !list_lookup_insert_ne by done.
Qed.

Lemma setSleepTimer_10_fragment_1_witness :
  ∃ w, sent (setSleepTimer 10) sampleDevice !! 2%nat = Some w
       ∧ length w = 20%nat
       ∧ w !! 15%nat = Some 0x14
       ∧ w !! 1%nat = Some CMD_WRITE
       ∧ w !! 19%nat = Some (checksum w)
       ∧ ∀ j, j ≠ 1%nat → j ≠ 15%nat → j ≠ 19%nat →
              w !! j = fragment (configRead sampleDevice) 1 !! j.
Proof.
  apply (setSleepTimer_10_fragment_1 sampleDevice
           (fragment (configRead sampleDevice) 1)); reflexivity.
Defined.

(** C5, as stated, fails on the sample device: the frame sent for fragment 1
    differs from the fragment read at an offset that is neither 15 nor the
    checksum offset 19 (the command byte, READ 0x44 rewritten to WRITE
    0x04). *)
Lemma setSleepTimer_10_rewrites_command :
  gotConfig (configRead sampleDevice) = true
  ∧ ∃ r w,
      configRead sampleDevice !! 1%nat = Some (Some r)
      ∧ r !! 15%nat = Some 0x00
      ∧ sent (setSleepTimer 10) sampleDevice !! 2%nat = Some w
      ∧ w !! 15%nat = Some 0x14
      ∧ ¬ (∀ j, j ≠ 15%nat → j ≠ 19%nat → w !! j = r !! j).
Proof.
  split; [reflexivity|]. eexists _, _.
  split; [reflexivity|]. split; [reflexivity|]. split; [reflexivity|].
  split; [reflexivity|].
  intros Hsame. specialize (Hsame 1%nat). vm_compute in Hsame.
  discriminate Hsame; lia.
Qed.

(** ** The speed byte of the target effect *)

Lemma peek_poke_ne f i j v : i ≠ j → peek (poke f i v) j = peek f j.
Proof. intros. unfold peek. by rewrite poke_lookup_ne. Qed.

Lemma peek_lookup f i b : f !! i = Some b → peek f i = b.
Proof. intros H. unfold peek. by rewrite H. Qed.

Lemma setEffect_fromRead_speed_byte n opts tgtSeq tgtOff r :
  effectTableLoc n = Some (tgtSeq, tgtOff) → (20 ≤ length r)%nat →
  setEffect_fromRead n opts (Some (tgtSeq, tgtOff)) tgtSeq r
    !! (tgtOff + 1)%nat
  = Some (rewrittenSpeedByte opts (peek r (tgtOff + 1))).
Proof.
  intros Hloc Hlen. apply effectTableLoc_Some in Hloc as (_ & Hseq & Hoff).
  unfold setEffect_fromRead, rewrittenSpeedByte. cbv zeta.
  do 2 (case_decide; try lia).
  destruct (brightness opts) as [b|].
  - rewrite !peek_poke_ne by lia. by poke_lookup.
  - rewrite !peek_poke_ne by lia. by poke_lookup.
Qed.


Lemma buildFrame_lookup_payload cmd sub sq p f k :
  buildFrame cmd sub sq p = Some f → (k < length p)%nat →
  f !! (4 + k)%nat = Some (wrap8 (peek p k)).
Proof.
  unfold buildFrame. case_decide as Hlen; [|done]. intros [= <-] Hk.
  rewrite <- !app_assoc.
  match goal with
  | |- (_ :: _ :: _ :: _ :: ?rest) !! _ = ?rhs => change (rest !! k = rhs)
  end.
  rewrite lookup_app_l by (unfold newUint8Array; by rewrite length_fmap).
  unfold newUint8Array, peek. rewrite list_lookup_fmap.
  destruct (lookup_lt_is_Some_2 p k Hk) as [b ->]. done.
Qed.

Lemma mapM_lookup {A B} (f : A → option B) l W k x :
  mapM f l = Some W → l !! k = Some x →
  ∃ w, W !! k = Some w ∧ f x = Some w.
Proof.
  intros HW Hx. apply mapM_Some_1 in HW.
  destruct (Forall2_lookup_l _ _ _ _ _ HW Hx) as (w & Hw & Hf). eauto.
Qed.

Section SpeedByte.

Variable CFG_TEMPLATE : list (list Z).



End SpeedByte.

(** ** The per-key planes *)

Lemma digitValue_decimal d : 0 ≤ d < 10 → digitValue 10 (0x30 + d) = Some d.
Proof.
  intros Hd. unfold digitValue. rewrite decide_True by lia.
  cbn [mbind option_bind]. rewrite decide_True by lia. f_equal. lia.
Qed.

Lemma isWhiteSpace_digit c : 0x30 ≤ c ≤ 0x39 → isWhiteSpace c = false.
Proof.
  intros Hc. unfold isWhiteSpace. apply orb_false_intro.
  - apply bool_decide_eq_false. rewrite !elem_of_cons, elem_of_nil. lia.
  - apply bool_decide_eq_false. lia.
Qed.

(** Reading the digits of [n] gives [n]. *)
Lemma decimalDigits_parse f n acc :
  (0 < f)%nat → 0 ≤ n < 10 ^ Z.of_nat f →
  parseDigits 10 (decimalDigits f n acc) None = parseDigits 10 acc (Some n).
Proof.
  revert n acc. induction f as [|f IH]; intros n acc Hf Hn; [lia|].
  cbn [decimalDigits]. case_decide as Hlt.
  - cbn [parseDigits]. rewrite digitValue_decimal
      by (Z.div_mod_to_equations; lia).
    cbn [default from_option id]. do 2 f_equal. Z.div_mod_to_equations. lia.
  - rewrite Nat2Z.inj_succ, Z.pow_succ_r in Hn by lia.
    destruct f as [|f']; [cbn in Hn; lia|].
    rewrite IH by (first [lia | split; Z.div_mod_to_equations; lia]).
    cbn [parseDigits]. rewrite digitValue_decimal
      by (Z.div_mod_to_equations; lia).
    cbn [default from_option id]. do 2 f_equal. Z.div_mod_to_equations. lia.
Qed.

Lemma decimalDigits_chars f n acc :
  Forall (λ c, 0x30 ≤ c ≤ 0x39) acc →
  Forall (λ c, 0x30 ≤ c ≤ 0x39) (decimalDigits f n acc).
Proof.
  revert n acc. induction f as [|f IH]; intros n acc Hacc; [done|].
  assert (Forall (λ c, 0x30 ≤ c ≤ 0x39) ((0x30 + n mod 10) :: acc))
    by (constructor; [Z.div_mod_to_equations; lia | done]).
  cbn [decimalDigits]. case_decide; [done | by apply IH].
Qed.

Lemma decimalDigits_length f n acc :
  (0 < f)%nat → (0 < length (decimalDigits f n acc))%nat.
Proof.
  revert n acc. induction f as [|f IH]; intros n acc Hf; [lia|].
  cbn [decimalDigits]. case_decide; [cbn; lia|].
  destruct f as [|f']; [cbn; lia | apply IH; lia].
Qed.

(** On a decimal numeral [parseInt] reads all of it, in radix 10. *)
Lemma parseInt_numeral s :
  (0 < length s)%nat → Forall (λ c, 0x30 ≤ c ≤ 0x39) s →
  parseInt s = parseDigits 10 s None
  ∧ parseInt (0x2D :: s) = parseDigits 10 s None ≫= λ n, Some (- n).
Proof.
  intros Hlen Hs. destruct s as [|c s]; [cbn in Hlen; lia|].
  apply Forall_cons in Hs as [Hc Hs].
  assert (Hprefix :
    match c :: s with
    | c0 :: x :: rest =>
        if decide (c0 = 0x30 ∧ (x = 0x78 ∨ x = 0x58))
        then (16, rest) else (10, c :: s)
    | _ => (10, c :: s)
    end = (10, c :: s)).
  { destruct s as [|x s]; [done|]. apply Forall_cons in Hs as [Hx _].
    rewrite decide_False by lia. done. }
  split.
  - unfold parseInt. cbn [trimStart]. rewrite isWhiteSpace_digit by done.
    rewrite !decide_False by lia. rewrite Hprefix.
    destruct (parseDigits 10 (c :: s) None) as [m|]; cbn; [|done].
    f_equal. lia.
  - unfold parseInt. cbn [trimStart].
    change (isWhiteSpace 0x2D) with false. cbv iota.
    rewrite !decide_True by (first [reflexivity | right; reflexivity]).
    rewrite Hprefix.
    by destruct (parseDigits 10 (c :: s) None) as [m|].
Qed.

(** [parseInt] reads the key of an integer written in plain decimal as that
    integer. *)
Lemma parseInt_numberKey k : parseInt (numberKey k) = Some k.
Proof.
  assert (Hfuel : ∀ n, 0 ≤ n → n < 10 ^ Z.of_nat (S (Z.to_nat (Z.log2 n)))).
  { intros n Hn. rewrite Nat2Z.inj_succ, Z2Nat.id by apply Z.log2_nonneg.
    destruct (decide (n = 0)) as [->|Hpos]; [done|].
    pose proof (Z.log2_spec n ltac:(lia)) as [_ Hup].
    eapply Z.lt_le_trans; [exact Hup|].
    apply Z.pow_le_mono_l. lia. }
  assert (Hread : ∀ n, 0 ≤ n →
    let s := decimalDigits (S (Z.to_nat (Z.log2 n))) n [] in
    parseInt s = Some n ∧ parseInt (0x2D :: s) = Some (- n)).
  { intros n Hn s.
    destruct (parseInt_numeral s) as [-> ->].
    - apply decimalDigits_length. lia.
    - by apply decimalDigits_chars.
    - unfold s. rewrite decimalDigits_parse
        by (first [lia | split; [lia | by apply Hfuel]]).
      done. }
  unfold numberKey. cbv zeta. case_decide as Hneg.
  - destruct (Hread (- k)) as [_ ->]; [lia|]. f_equal. lia.
  - by destruct (Hread k) as [-> _]; [lia|].
Qed.

Lemma numberKey_inj : Inj (=) (=) numberKey.
Proof.
  intros a b Hab. apply (inj Some).
  by rewrite <- (parseInt_numberKey a), <- (parseInt_numberKey b), Hab.
Qed.

Lemma ledOf_numberKey k :
  ledOf (numberKey k)
  = if decide (0 ≤ k < 126) then Some (Z.to_nat k) else None.
Proof. unfold ledOf. by rewrite parseInt_numberKey. Qed.

Lemma ledOf_lt key i : ledOf key = Some i → (i < 126)%nat.
Proof.
  unfold ledOf. destruct (parseInt key) as [j|]; [|done].
  cbn [mbind option_bind]. case_decide; [|done]. intros [= <-]. lia.
Qed.

Lemma paintKey_ledOf idx rgb R G B :
  paintKey idx rgb (R, G, B)
  = match ledOf idx with
    | Some i => (poke R i rgb.1.1, poke G i rgb.1.2, poke B i rgb.2)
    | None => (R, G, B)
    end.
Proof.
  unfold paintKey, ledOf. destruct (parseInt idx) as [j|]; [|done].
  cbn [mbind option_bind]. by case_decide.
Qed.

(** ** The per-key planes *)

(** Each plane holds, at every LED, the channel of the last entry read as
    that LED. *)
Lemma perKeyPlanes_lookup keyColors :
  ∃ R G B, perKeyPlanes keyColors = (R, G, B)
    ∧ (length R = 126 ∧ length G = 126 ∧ length B = 126)%nat
    ∧ ∀ i, (i < 126)%nat →
        R !! i = Some (wrap8 (channel 0 (paintedAt keyColors i)))
        ∧ G !! i = Some (wrap8 (channel 1 (paintedAt keyColors i)))
        ∧ B !! i = Some (wrap8 (channel 2 (paintedAt keyColors i))).
Proof.
  induction keyColors as [|[idx rgb] kc IH] using rev_ind.
  - exists (zeros 126), (zeros 126), (zeros 126). split; [done|].
    split; [unfold zeros; by rewrite !length_replicate|].
    intros i Hi. unfold zeros. rewrite !lookup_replicate_2 by done.
    by repeat split.
  - destruct IH as (R & G & B & HE & (HR & HG & HB) & IH).
    unfold perKeyPlanes in *. rewrite foldl_snoc, HE. cbn [fst snd].
    rewrite paintKey_ledOf. destruct (ledOf idx) as [j|] eqn:Hj.
    + eexists _, _, _. split; [done|].
      split; [by rewrite !length_poke|].
      intros i Hi. unfold paintedAt. rewrite filter_app, filter_cons, filter_nil.
      cbn [fst]. rewrite Hj. case_decide as Hji.
      * injection Hji as ->. rewrite last_snoc. cbn.
        by rewrite !poke_lookup_eq by lia.
      * rewrite app_nil_r. assert (j ≠ i) by congruence.
        rewrite !poke_lookup_ne by done. by apply IH.
    + exists R, G, B. split; [done|]. split; [done|].
      intros i Hi. unfold paintedAt. rewrite filter_app, filter_cons, filter_nil.
      cbn [fst]. rewrite Hj. rewrite decide_False by done.
      rewrite app_nil_r. by apply IH.
Qed.

Lemma property_elem {V} key (obj : list (PropertyKey * V)) v :
  property key obj = Some v → (key, v) ∈ obj.
Proof.
  induction obj as [|[k w] obj IH]; [done|]. cbn [property].
  case_decide as Hk.
  - intros [= <-]. subst k. apply list_elem_of_here.
  - intros H. apply list_elem_of_further. by apply IH.
Qed.

(** With distinct keys, the last entry read as LED [i] is the property
    whose key is that of [i], when these are the only keys read as [i]. *)
Lemma last_filter_property keyColors i key :
  NoDup keyColors.*1 →
  (∀ entry, entry ∈ keyColors → ledOf entry.1 = Some i ↔ entry.1 = key) →
  snd <$> last (filter (λ entry, ledOf entry.1 = Some i) keyColors)
  = property key (V := Z * Z * Z) keyColors.
Proof.
  induction keyColors as [|[k v] kc IH]; intros Hnd Hkey; [done|].
  rewrite fmap_cons in Hnd. apply NoDup_cons in Hnd as [Hk Hnd].
  pose proof (Hkey (k, v) ltac:(apply list_elem_of_here)) as Hkv.
  cbn [fst] in Hkv, Hk. cbn [property]. rewrite filter_cons. cbn [fst].
  assert (Hrest : ∀ entry, entry ∈ kc →
            ledOf entry.1 = Some i ↔ entry.1 = key)
    by (intros e He; apply Hkey; by apply list_elem_of_further).
  destruct (decide (k = key)) as [->|Hne].
  - rewrite decide_True by (by apply Hkv).
    assert (Hnone : filter (λ entry, ledOf entry.1 = Some i) kc = []).
    { destruct (filter _ kc) as [|e l] eqn:Hf; [done|]. exfalso.
      assert (He : e ∈ filter (λ entry, ledOf entry.1 = Some i) kc)
        by (rewrite Hf; apply list_elem_of_here).
      apply list_elem_of_filter in He as [HP He]. apply Hk.
      apply list_elem_of_fmap. exists e. split; [|done].
      symmetry. by apply Hrest. }
    by rewrite Hnone.
  - rewrite decide_False by (by rewrite Hkv). by apply IH.
Qed.

(** On a map keyed by integers in plain decimal, the last entry read as LED
    [i] is the entry of [i]: no two keys are read as the same LED. *)
Lemma paintedAt_plain keyColors i :
  plainKeys keyColors → (i < 126)%nat →
  paintedAt keyColors i = colorAt keyColors i.
Proof.
  intros [Hnd Hkeys] Hi. unfold paintedAt, colorAt. f_equal.
  apply last_filter_property; [done|].
  - intros [key v] He. cbn [fst].
    destruct (Hkeys key) as [k ->].
    { apply list_elem_of_fmap. by exists (key, v). }
    rewrite ledOf_numberKey. case_decide as Hk.
    + split.
      * intros [= <-]. f_equal. lia.
      * intros ->%numberKey_inj. f_equal. lia.
    + split; [done|]. intros ->%numberKey_inj. lia.
Qed.

Lemma planePayload_values plane s :
  planePayload plane s
  = 0x0e :: ((λ j, wrap8 (peek plane (s * 14 + j))) <$> seq 0 14).
Proof. reflexivity. Qed.

Lemma buildFrame_wrap cmd sub sq p :
  buildFrame cmd sub sq (wrap8 <$> p) = buildFrame cmd sub sq p.
Proof.
  unfold buildFrame, newUint8Array. rewrite length_fmap.
  case_decide; [|done]. rewrite <- list_fmap_compose.
  by rewrite (list_fmap_ext (wrap8 ∘ wrap8) wrap8 p)
    by (intros; apply wrap8_idemp).
Qed.

Lemma length_planePayload plane s : length (planePayload plane s) = 15%nat.
Proof. reflexivity. Qed.

Lemma perkey_fragments_run plane ss st :
  ∃ fs, perkey_fragments plane ss st
        = Some (st.1 ++ fs, st.2 + Z.of_nat (length ss))
    ∧ length fs = length ss
    ∧ ∀ k s, ss !! k = Some s →
        ∃ f, fs !! k = Some f
             ∧ buildFrame CMD_PERKEY SUBCMD_PERKEY (st.2 + Z.of_nat k)
                 (planePayload plane s) = Some f.
Proof.
  revert st. induction ss as [|s ss IH]; intros st.
  - exists []. cbn. rewrite app_nil_r, Z.add_0_r. by destruct st.
  - cbn [perkey_fragments].
    destruct (buildFrame_is_Some CMD_PERKEY SUBCMD_PERKEY st.2
                (planePayload plane s)) as [f Hf];
      [by rewrite length_planePayload|].
    rewrite Hf. cbn [mbind option_bind].
    destruct (IH (st.1 ++ [f], st.2 + 1)) as (fs & Hrun & Hlen & Hfs).
    exists (f :: fs). cbn [fst snd] in *. split; [|split].
    + rewrite Hrun. f_equal. f_equal; [by rewrite <- app_assoc|].
      cbn [length]. lia.
    + cbn. by rewrite Hlen.
    + intros [|k] s' Hs'.
      * injection Hs' as <-. exists f. by rewrite Z.add_0_r.
      * destruct (Hfs k s' Hs') as (f' & Hf' & Hb). exists f'.
        split; [done|]. rewrite <- Hb. f_equal. lia.
Qed.

(** The frames of the three planes: frame [plane*9 + s] is built with that
    sequence number from fragment [s] of the plane. *)
Lemma perkey_planes_run R G B :
  ∃ fs, perkey_planes [R; G; B] ([], 0) = Some (fs, 27)
    ∧ length fs = 27%nat
    ∧ ∀ plane s, (plane < 3)%nat → (s < 9)%nat →
        ∃ f, fs !! (plane * 9 + s)%nat = Some f
             ∧ buildFrame CMD_PERKEY SUBCMD_PERKEY (Z.of_nat (plane * 9 + s))
                 (planePayload (default [] ([R; G; B] !! plane)) s) = Some f.
Proof.
  cbn [perkey_planes].
  destruct (perkey_fragments_run R (seq 0 9) ([], 0)) as (f0 & H0 & L0 & F0).
  rewrite H0. cbn [mbind option_bind fst snd app].
  destruct (perkey_fragments_run G (seq 0 9) (f0, 0 + Z.of_nat (length (seq 0 9))))
    as (f1 & H1 & L1 & F1).
  rewrite H1. cbn [mbind option_bind fst snd].
  destruct (perkey_fragments_run B (seq 0 9)
              (f0 ++ f1, 0 + Z.of_nat (length (seq 0 9))
                           + Z.of_nat (length (seq 0 9))))
    as (f2 & H2 & L2 & F2).
  rewrite H2. cbn [mbind option_bind fst snd].
  rewrite length_seq in *. cbn [fst snd] in *.
  exists ((f0 ++ f1) ++ f2). split; [done|].
  split; [rewrite !length_app; lia|].
  intros plane s Hplane Hs.
  assert (Hseq : seq 0 9 !! s = Some s) by (by rewrite lookup_seq_lt).
  destruct plane as [|[|[|plane]]]; [| | |lia]; cbn [lookup list_lookup default].
  - destruct (F0 s s Hseq) as (f & Hf & Hb). exists f. split.
    + rewrite <- app_assoc, lookup_app_l by lia. done.
    + rewrite <- Hb. f_equal.
  - destruct (F1 s s Hseq) as (f & Hf & Hb). exists f. split.
    + rewrite lookup_app_l by (rewrite length_app; lia).
      rewrite lookup_app_r by lia. rewrite <- Hf. f_equal. lia.
    + rewrite <- Hb. f_equal. lia.
  - destruct (F2 s s Hseq) as (f & Hf & Hb). exists f. split.
    + rewrite lookup_app_r by (rewrite length_app; lia).
      rewrite <- Hf. f_equal. rewrite length_app. lia.
    + rewrite <- Hb. f_equal. lia.
Qed.


Lemma peek_planePayload plane s j :
  (j < 14)%nat →
  peek (planePayload plane s) (1 + j) = wrap8 (peek plane (s * 14 + j)).
Proof.
  intros Hj. rewrite planePayload_values. unfold peek at 1.
  change ((?x :: ?l) !! (1 + j)%nat) with (l !! j).
  by rewrite list_lookup_fmap, lookup_seq_lt.
Qed.





(** ** LED indices outside 0..125 *)

Lemma perKeyPlanes_filter keyColors :
  perKeyPlanes (filter (λ entry, is_Some (ledOf entry.1)) keyColors)
  = perKeyPlanes keyColors.
Proof.
  unfold perKeyPlanes. generalize (zeros 126, zeros 126, zeros 126).
  induction keyColors as [|[idx rgb] kc IH]; intros planes; [done|].
  rewrite filter_cons. cbn [fst foldl snd]. case_decide as Hled.
  - cbn [foldl fst snd]. apply IH.
  - rewrite IH. f_equal. destruct planes as [[R G] B].
    rewrite paintKey_ledOf. destruct (ledOf idx); [|done].
    destruct Hled. by eexists.
Qed.

Lemma applyPerKey_perkeyFrames_is_Some keyColors :
  is_Some (applyPerKey_perkeyFrames keyColors).
Proof.
  unfold applyPerKey_perkeyFrames.
  destruct (perKeyPlanes_lookup keyColors) as (R & G & B & -> & _ & _).
  destruct (perkey_planes_run R G B) as (fs & -> & _ & _).
  cbn [mbind option_bind fst snd].
  destruct (buildFrame_is_Some CMD_PERKEY SUBCMD_PERKEY 27 trailer)
    as [t ->]; [cbn; lia|]. by eexists.
Qed.

(** Two maps with the same per-key frames make [applyPerKey] run alike:
    same outcome, same frames, same device answers used, and the same
    console lines but for the number of keys in the closing line. *)
Lemma applyPerKey_same_frames CFG_TEMPLATE keyColors keyColors' dev :
  applyPerKey_perkeyFrames keyColors = applyPerKey_perkeyFrames keyColors' →
  let out := applyPerKey CFG_TEMPLATE keyColors dev in
  let out' := applyPerKey CFG_TEMPLATE keyColors' dev in
  out.1 = out'.1
  ∧ outbox out.2 = outbox out'.2
  ∧ inbox out.2 = inbox out'.2
  ∧ (out.1 = Thrown → console out.2 = console out'.2)
  ∧ (out.1 = Done () →
     ∃ lines,
       console out.2 = lines ++ [LogPerKeyApplied (length keyColors)]
       ∧ console out'.2 = lines ++ [LogPerKeyApplied (length keyColors')]).
Proof.
  intros Hsame. cbv zeta. unfold applyPerKey. rewrite <- Hsame.
  rewrite !log_then.
  destruct (readConfig_run
              {| inbox := inbox dev; outbox := outbox dev;
                 console := (console dev
                             ++ [LogText "── Applying per-key colors ──"])
                            ++ [LogText "Phase 1: Reading config..."] |})
    as (dev1 & Hread & _).
  cbn [inbox outbox console]. rewrite !(IO_bind_run _ _ _ _ _ Hread).
  rewrite !log_then.
  destruct (applyPerKey_writeFrames CFG_TEMPLATE _) as [W|];
    [|rewrite !orThrow_None; by repeat split].
  rewrite !orThrow_Some.
  match goal with |- context [(txBulk W ?l ≫= _) ?d] =>
    destruct (txBulk_run W l d) as (e2 & dev2 & Hbulk & _) end.
  rewrite !(IO_bind_run _ _ _ _ _ Hbulk). rewrite !log_then.
  destruct (applyPerKey_perkeyFrames keyColors) as [K|];
    [|rewrite !orThrow_None; by repeat split].
  rewrite !orThrow_Some.
  match goal with |- context [(txBulk K ?l ≫= _) ?d] =>
    destruct (txBulk_run K l d) as (e3 & dev3 & Hbulk' & _) end.
  rewrite !(IO_bind_run _ _ _ _ _ Hbulk'). rewrite !log_then.
  match goal with |- context [(save ≫= _) ?d] =>
    destruct (save_run d) as (e4 & dev4 & Hsave & _) end.
  rewrite !(IO_bind_run _ _ _ _ _ Hsave). unfold log. cbn [fst snd console
    inbox outbox]. repeat split; [done|]. intros _. by eexists.
Qed.

(** C7, as the code has it.  An entry whose key is not read as an LED in
    0..125, and so every entry keyed by an integer outside 0..125 written in
    plain decimal, is skipped without any error: the per-key frames of a map
    are those of the map without such entries, they are always built, and
    [applyPerKey] runs for the map as it does for the map without them: same
    outcome, same frames sent, and the same console lines but for the number
    of keys in the closing line. *)
Theorem perkey_out_of_range_dropped
    (keyColors : list (PropertyKey * (Z * Z * Z))) :
  let kept := filter (λ entry, is_Some (ledOf entry.1)) keyColors in
  applyPerKey_perkeyFrames keyColors = applyPerKey_perkeyFrames kept
  ∧ is_Some (applyPerKey_perkeyFrames keyColors)
  ∧ (∀ k rgb, (numberKey k, rgb) ∈ kept
              ↔ (numberKey k, rgb) ∈ keyColors ∧ 0 ≤ k < 126)
  ∧ ∀ CFG_TEMPLATE dev,
      let out := applyPerKey CFG_TEMPLATE keyColors dev in
      let out' := applyPerKey CFG_TEMPLATE kept dev in
      out.1 = out'.1
      ∧ sent (applyPerKey CFG_TEMPLATE keyColors) dev
        = sent (applyPerKey CFG_TEMPLATE kept) dev
      ∧ (out.1 = Thrown → console out.2 = console out'.2)
      ∧ (out.1 = Done () →
         ∃ lines,
           console out.2 = lines ++ [LogPerKeyApplied (length keyColors)]
           ∧ console out'.2 = lines ++ [LogPerKeyApplied (length kept)]).
Proof.
  intros kept.
  assert (Hsame : applyPerKey_perkeyFrames keyColors
                  = applyPerKey_perkeyFrames kept).
  { unfold applyPerKey_perkeyFrames, kept. by rewrite perKeyPlanes_filter. }
  split; [exact Hsame|]. split; [apply applyPerKey_perkeyFrames_is_Some|].
  split.
  - intros k rgb. unfold kept. rewrite list_elem_of_filter. cbn [fst].
    rewrite ledOf_numberKey. case_decide as Hk.
    + split; [by intros [_ ?] | intros [? _]; split; [by eexists | done]].
    + split; [by intros [[? [=]] _] | by intros [_ ?]].
  - intros CFG_TEMPLATE dev.
    destruct (applyPerKey_same_frames CFG_TEMPLATE keyColors kept dev Hsame)
      as (Hout & Hbox & _ & Hthrown & Hdone).
    cbv zeta. split; [done|]. split; [|by split].
    unfold sent. by rewrite Hbox.
Qed.

(** C7, as stated, fails: on the sample device a map with an entry at LED
    126 is not rejected; [applyPerKey] completes, sends all 40 frames (read
    request, 10 config, 28 per-key, save) and logs no error. *)
Lemma applyPerKey_accepts_stray_index :
  property (numberKey 126) strayKeyColors = Some (9, 9, 9)
  ∧ is_Some (applyPerKey_perkeyFrames strayKeyColors)
  ∧ (applyPerKey sampleTemplate strayKeyColors sampleDevice).1 = Done ()
  ∧ length (sent (applyPerKey sampleTemplate strayKeyColors) sampleDevice)
    = 40%nat
  ∧ last (console (applyPerKey sampleTemplate strayKeyColors sampleDevice).2)
    = Some (LogPerKeyApplied 2).
Proof. vm_compute. split; [done|]. split; [by eexists|]. done. Qed.

(** ** Read-modify-write idempotence *)

Lemma rewrittenSpeedByte_idem opts old :
  rewrittenSpeedByte opts (rewrittenSpeedByte opts old)
  = rewrittenSpeedByte opts old.
Proof.
  unfold rewrittenSpeedByte.
  rewrite !decodeSpeedByte_arith, !encodeSpeedByte_arith.
  cbn [sb_speed sb_colorful]. unfold wrap8.
  destruct (speed opts) as [s|], (colorful opts),
    (bool_decide (is_Some (colorRgb opts))); cbn [negb andb];
    try reflexivity.
  - destruct (old mod 16 =? 7) eqn:Hold.
    + replace ((16 * s + 7) mod 256 mod 16 =? 7) with true; [done|].
      symmetry. apply Z.eqb_eq. Z.div_mod_to_equations. lia.
    + replace ((16 * s + 0) mod 256 mod 16 =? 7) with false; [done|].
      symmetry. apply Z.eqb_neq. Z.div_mod_to_equations. lia.
  - Z.div_mod_to_equations. lia.
  - Z.div_mod_to_equations. lia.
  - Z.div_mod_to_equations. lia.
  - destruct (old mod 16 =? 7) eqn:Hold.
    + replace ((16 * (old / 16) + 7) mod 256 mod 16 =? 7) with true.
      * Z.div_mod_to_equations. lia.
      * symmetry. apply Z.eqb_eq. Z.div_mod_to_equations. lia.
    + replace ((16 * (old / 16) + 0) mod 256 mod 16 =? 7) with false.
      * Z.div_mod_to_equations. lia.
      * symmetry. apply Z.eqb_neq. Z.div_mod_to_equations. lia.
Qed.

Lemma poke_same f i v : f !! i = Some (wrap8 v) → poke f i v = f.
Proof. apply list_insert_id. Qed.

Lemma poke_over f i c v : poke (<[i := c]> f) i v = poke f i v.
Proof. apply list_insert_insert_eq. Qed.

Lemma speed_poke_same f off opts old :
  f !! (off + 1)%nat = Some (rewrittenSpeedByte opts old) →
  poke f (off + 1)
    (encodeSpeedByte
       (match speed opts with
        | Some s => s
        | None => sb_speed (decodeSpeedByte (peek f (off + 1)))
        end)
       (if colorful opts then true
        else negb (bool_decide (is_Some (colorRgb opts)))
             && sb_colorful (decodeSpeedByte (peek f (off + 1)))))
  = f.
Proof.
  intros H. apply poke_same. rewrite (peek_lookup _ _ _ H).
  change (Some (wrap8 ?v))
    with (Some (rewrittenSpeedByte opts (rewrittenSpeedByte opts old))).
  by rewrite rewrittenSpeedByte_idem.
Qed.

(** Drops the stores of a second pass that find their value in place. *)
Ltac drop_stores r1 :=
  repeat match goal with
         | H : r1 !! ?i = Some (wrap8 ?v) |- context [poke r1 ?i ?v] =>
             rewrite (poke_same r1 i v H)
         end.

Lemma checksum_stored g :
  (20 ≤ length g)%nat →
  poke g 19 (checksum g) !! 19%nat
  = Some (wrap8 (checksum (poke g 19 (checksum g)))).
Proof. intros. rewrite checksum_poke_19. by apply poke_lookup_eq. Qed.

(** Rewriting a frame that is already the result of the same rewrite, with
    any command byte put in its place, gives the same frame again. *)
Lemma setEffect_fromRead_idem n opts sq r c :
  (20 ≤ length r)%nat →
  setEffect_fromRead n opts (effectTableLoc n) sq
    (<[1%nat := c]> (setEffect_fromRead n opts (effectTableLoc n) sq r))
  = setEffect_fromRead n opts (effectTableLoc n) sq r.
Proof.
  intros Hlen.
  destruct (effectTableLoc n) as [[tgtSeq tgtOff]|] eqn:Hloc.
  - apply effectTableLoc_Some in Hloc as (_ & Hseq & Hoff).
    unfold setEffect_fromRead. cbv zeta.
    destruct (decide (sq = 0%nat)) as [->|Hsq0];
      [destruct (decide (0%nat = tgtSeq)) as [?|_]; [lia|]
      |destruct (decide (sq = tgtSeq)) as [->|Hsq]].
    + (* fragment 0 *)
      match goal with |- _ = ?rhs => set (r1 := rhs) end.
      assert (r1 !! 1%nat = Some (wrap8 CMD_WRITE)) by (unfold r1; by poke_lookup).
      assert (r1 !! 8%nat = Some (wrap8 1)) by (unfold r1; by poke_lookup).
      assert (r1 !! 14%nat = Some (wrap8 0)) by (unfold r1; by poke_lookup).
      assert (r1 !! 15%nat = Some (wrap8 n)) by (unfold r1; by poke_lookup).
      assert (r1 !! 17%nat = Some (wrap8 (colorMode opts)))
        by (unfold r1; by poke_lookup).
      assert (r1 !! 19%nat = Some (wrap8 (checksum r1)))
        by (unfold r1; apply checksum_stored; by rewrite !length_poke).
      clearbody r1. rewrite poke_over. by drop_stores r1.
    + (* the fragment of the effect's table entry *)
      set (old := peek r (tgtOff + 1)).
      match goal with |- _ = ?rhs => set (r1 := rhs) end.
      assert (r1 !! 1%nat = Some (wrap8 CMD_WRITE))
        by (unfold r1; destruct (brightness opts); by poke_lookup).
      assert (Hbr : ∀ b, brightness opts = Some b →
                r1 !! tgtOff = Some (wrap8 b)).
      { intros b Hb. unfold r1. rewrite Hb. by poke_lookup. }
      assert (Hsp : r1 !! (tgtOff + 1)%nat = Some (rewrittenSpeedByte opts old)).
      { unfold r1, rewrittenSpeedByte, old.
        destruct (brightness opts); rewrite !peek_poke_ne by lia;
          by poke_lookup. }
      assert (r1 !! 19%nat = Some (wrap8 (checksum r1))).
      { unfold r1. apply checksum_stored.
        destruct (brightness opts); by rewrite !length_poke. }
      clearbody r1. rewrite poke_over. drop_stores r1.
      destruct (brightness opts) as [b|].
      * rewrite (poke_same r1 tgtOff b) by auto.
        rewrite (speed_poke_same r1 tgtOff opts old Hsp). by drop_stores r1.
      * rewrite (speed_poke_same r1 tgtOff opts old Hsp). by drop_stores r1.
    + (* any other fragment *)
      match goal with |- _ = ?rhs => set (r1 := rhs) end.
      assert (r1 !! 1%nat = Some (wrap8 CMD_WRITE)) by (unfold r1; by poke_lookup).
      assert (r1 !! 19%nat = Some (wrap8 (checksum r1)))
        by (unfold r1; apply checksum_stored; by rewrite !length_poke).
      clearbody r1. rewrite poke_over. by drop_stores r1.
  - unfold setEffect_fromRead. cbv zeta.
    match goal with |- _ = ?rhs => set (r1 := rhs) end.
    assert (r1 !! 1%nat = Some (wrap8 CMD_WRITE))
      by (unfold r1; case_decide; by poke_lookup).
    assert (H0 : sq = 0%nat → r1 !! 8%nat = Some (wrap8 1)
                 ∧ r1 !! 14%nat = Some (wrap8 0)
                 ∧ r1 !! 15%nat = Some (wrap8 n)
                 ∧ r1 !! 17%nat = Some (wrap8 (colorMode opts))).
    { intros ->. unfold r1. rewrite decide_True by done.
      repeat split; by poke_lookup. }
    assert (r1 !! 19%nat = Some (wrap8 (checksum r1))).
    { unfold r1. apply checksum_stored. case_decide; by rewrite !length_poke. }
    clearbody r1. rewrite poke_over. drop_stores r1.
    case_decide as Hsq; [|by drop_stores r1].
    destruct (H0 Hsq) as (? & ? & ? & ?). by drop_stores r1.
Qed.

Lemma gotConfig_Some (frames : list (list Z)) :
  gotConfig (Some <$> frames) = true.
Proof.
  unfold gotConfig. induction frames as [|f frames IH]; [done|].
  cbn [fmap list_fmap forallb]. rewrite IH.
  by rewrite bool_decide_eq_true_2 by eauto.
Qed.

Lemma fragment_Some (frames : list (list Z)) sq f :
  frames !! sq = Some f → fragment (Some <$> frames) sq = f.
Proof. intros H. unfold fragment. by rewrite list_lookup_fmap, H. Qed.

Section Idempotence.

Variable CFG_TEMPLATE : list (list Z).
Variable PAL_TEMPLATE : list (list Z).
Variable PAL_ZEROS : list Z.
Variable PAL_LAST : list Z.

Local Abbreviation setEffect' :=
  (setEffect CFG_TEMPLATE PAL_TEMPLATE PAL_ZEROS PAL_LAST).

Lemma setEffect_sent_config n eff opts dev W :
  EFFECTS n = Some eff →
  setEffect_writeFrames CFG_TEMPLATE (configRead dev) n opts = Some W →
  ∃ rest, sent (setEffect' n opts) dev = readFrame :: W ++ rest.
Proof.
  intros Heff HW.
  pose proof (setEffect_run CFG_TEMPLATE PAL_TEMPLATE PAL_ZEROS PAL_LAST
                n eff opts dev Heff) as Hrun.
  cbv zeta in Hrun. rewrite HW in Hrun.
  destruct (setEffect_palFrames _ _ _ opts) as [P|]; destruct Hrun as [_ Hout].
  - exists (P ++ [saveFrame]). by apply sent_outbox.
  - exists []. rewrite app_nil_r. by apply sent_outbox.
Qed.

(** C2. For an effect of the table and any parameters, the config frames
    [setEffect] writes from a complete read are a fixed point: when those
    frames, up to their command field, are what the next read returns,
    [setEffect] with the same parameters writes the very same ten frames
    again (command field included, which it sets to WRITE both times). *)
Theorem setEffect_read_modify_write_idempotent (dev : Device) (n : Z)
    (eff : EffectInfo) (opts : EffectOptions) :
  EFFECTS n = Some eff →
  gotConfig (configRead dev) = true →
  ∃ W1,
    setEffect_writeFrames CFG_TEMPLATE (configRead dev) n opts = Some W1
    ∧ length W1 = 10%nat
    ∧ (∃ rest, sent (setEffect' n opts) dev = readFrame :: W1 ++ rest)
    ∧ ∀ echo, echoOf W1 echo →
        setEffect_writeFrames CFG_TEMPLATE (Some <$> echo) n opts = Some W1
        ∧ ∀ dev2, configRead dev2 = Some <$> echo →
            ∃ rest, sent (setEffect' n opts) dev2 = readFrame :: W1 ++ rest.
Proof.
  intros Heff Hgot.
  pose proof (setEffect_writeFrames_read CFG_TEMPLATE _ n opts Hgot) as HW1.
  eexists. split; [exact HW1|].
  split; [by rewrite length_fmap, length_seq|].
  split; [by eapply setEffect_sent_config|].
  intros echo Hecho.
  assert (HW2 : setEffect_writeFrames CFG_TEMPLATE (Some <$> echo) n opts
    = Some ((λ sq, setEffect_fromRead n opts (effectTableLoc n) sq
                     (fragment (configRead dev) sq)) <$> seq 0 10)).
  { rewrite setEffect_writeFrames_read by apply gotConfig_Some.
    f_equal. apply list_fmap_ext. intros k sq Hsq.
    apply lookup_seq in Hsq as [-> Hk]. cbn [Nat.add].
    destruct (configRead_fragment dev k Hgot Hk) as (r & _ & Hr & Hfrag & _).
    destruct Hfrag as (Hlen & _).
    assert (Hw : ((λ sq, setEffect_fromRead n opts (effectTableLoc n) sq
                           (fragment (configRead dev) sq)) <$> seq 0 10) !! k
                 = Some (setEffect_fromRead n opts (effectTableLoc n) k r)).
    { rewrite list_lookup_fmap, lookup_seq_lt by done.
      cbn [fmap option_fmap option_map Nat.add]. by rewrite Hr. }
    destruct (Forall2_lookup_l _ _ _ _ _ Hecho Hw) as (e & He & c & ->).
    rewrite (fragment_Some _ _ _ He), Hr.
    by apply setEffect_fromRead_idem. }
  split; [exact HW2|].
  intros dev2 Hdev2. eapply setEffect_sent_config; [done|].
  by rewrite Hdev2.
Qed.

End Idempotence.

(** ** The theorems on the sample device *)

Lemma setEffect_read_modify_write_idempotent_witness :
  ∃ W1,
    setEffect_writeFrames sampleTemplate (configRead sampleDevice) 2
      sampleOptions = Some W1
    ∧ length W1 = 10%nat
    ∧ (∃ rest,
         sent (setEffect sampleTemplate samplePalette (zeros 15) samplePalLast
                 2 sampleOptions) sampleDevice
         = readFrame :: W1 ++ rest)
    ∧ ∀ echo, echoOf W1 echo →
        setEffect_writeFrames sampleTemplate (Some <$> echo) 2 sampleOptions
        = Some W1
        ∧ ∀ dev2, configRead dev2 = Some <$> echo →
            ∃ rest,
              sent (setEffect sampleTemplate samplePalette (zeros 15)
                      samplePalLast 2 sampleOptions) dev2
              = readFrame :: W1 ++ rest.
Proof.
  apply (setEffect_read_modify_write_idempotent sampleTemplate samplePalette
           (zeros 15) samplePalLast sampleDevice 2
           {| name := "Respire"; Protocol.speed := true; color := true |}
           sampleOptions); reflexivity.
Defined.



(** On the sample device effect 2 has brightness 4 and speed byte 0x47
    (speed 4, colorful); [setEffect 2] with a custom colour, brightness 2 and
    no speed writes brightness 2 and speed byte 0x40, sets the effect number
    and the colour mode 0x01, and sends 1 + 10 + 37 + 1 frames. *)
Example setEffect_on_sample_device :
  let frames := sent (setEffect sampleTemplate samplePalette (zeros 15)
                        samplePalLast 2 sampleOptions) sampleDevice in
  fragment (configRead sampleDevice) 4 !! 9%nat = Some 4
  ∧ fragment (configRead sampleDevice) 4 !! 10%nat = Some 0x47
  ∧ (frames !! 5%nat) ≫= (.!! 9%nat) = Some 2
  ∧ (frames !! 5%nat) ≫= (.!! 10%nat) = Some 0x40
  ∧ (frames !! 1%nat) ≫= (.!! 15%nat) = Some 2
  ∧ (frames !! 1%nat) ≫= (.!! 17%nat) = Some 0x01
  ∧ length frames = 49%nat.
Proof. vm_compute. done. Qed.

(** * Further properties of the transactions *)

(** ** Bulk writes *)

Lemma txRx_step frame dev :
  txRx frame dev
  = (Done (fullReport <$> mjoin (head (inbox dev))),
     {| inbox := tail (inbox dev); outbox := outbox dev ++ [frame];
        console := console dev
                   ++ [LogTX frame;
                       LogRX (fullReport <$> mjoin (head (inbox dev)))] |}).
Proof.
  unfold txRx, mbind, IO_bind, sendReport, readReport, log, mret, IO_ret.
  cbn [inbox outbox console].
  destruct (inbox dev) as [|o rest];
    cbn [head tail mjoin option_join inbox outbox console];
    by rewrite <- app_assoc.
Qed.

Lemma txBulk_loop_step frames echoes dev :
  ∃ dev',
    txBulk_loop frames echoes dev
    = (Done (echoes ++ (fullReport <$>
                          omap id (take (length frames) (inbox dev)))), dev')
    ∧ outbox dev' = outbox dev ++ frames
    ∧ inbox dev' = drop (length frames) (inbox dev).
Proof.
  revert echoes dev. induction frames as [|frame rest IH]; intros echoes dev.
  - exists dev. cbn. by rewrite !app_nil_r.
  - cbn [txBulk_loop]. rewrite (IO_bind_run _ _ _ _ _ (txRx_step frame dev)).
    match goal with |- context [txBulk_loop rest ?e ?d] =>
      destruct (IH e d) as (dev' & Hrun & Hout & Hin) end.
    exists dev'. cbn [inbox outbox] in *. rewrite Hrun, Hout, Hin.
    split; [|split].
    + f_equal. f_equal. destruct (inbox dev) as [|[e|] inb];
        cbn [length take head tail mjoin option_join fmap option_fmap
             option_map omap list_omap id];
        rewrite ?take_nil; cbn [omap list_omap fmap list_fmap];
        rewrite <- ?app_assoc; done.
    + by rewrite <- app_assoc.
    + destruct (inbox dev); cbn [tail length drop]; by rewrite ?drop_nil.
Qed.

Lemma length_omap_le {A B} (f : A → option B) (l : list A) :
  (length (omap f l) ≤ length l)%nat.
Proof.
  induction l as [|x l IH]; [done|]. cbn. destruct (f x); cbn; lia.
Qed.

(** X1. [txBulk] sends every frame, in order, whatever comes back: each
    send is followed by one receive attempt, so it uses up one device
    outcome per frame; the echoes it returns are the reports among those
    outcomes, and a timeout neither stops the loop nor is retried.  Its last
    log line counts echoes against frames. *)
Theorem txBulk_fire_and_forget (frames : list (list Z)) (label : string)
    (dev : Device) :
  let echoes := fullReport <$> omap id (take (length frames) (inbox dev)) in
  ∃ dev',
    txBulk frames label dev = (Done echoes, dev')
    ∧ outbox dev' = outbox dev ++ frames
    ∧ inbox dev' = drop (length frames) (inbox dev)
    ∧ (length echoes ≤ length frames)%nat
    ∧ last (console dev')
      = Some (LogBulk label (length echoes) (length frames)).
Proof.
  intros echoes.
  destruct (txBulk_loop_step frames [] dev) as (dev1 & Hrun & Hout & Hin).
  cbn [app] in Hrun. fold echoes in Hrun.
  unfold txBulk. rewrite (IO_bind_run _ _ _ _ _ Hrun).
  unfold mbind, IO_bind, log, mret, IO_ret. cbn [fst snd].
  eexists. split; [reflexivity|]. cbn [inbox outbox console].
  split; [done|]. split; [done|]. split; [|apply last_snoc].
  unfold echoes. rewrite length_fmap.
  etrans; [apply length_omap_le|]. rewrite length_take. lia.
Qed.

(** ** The polling window of readConfig *)

Lemma readConfig_loop_inbox n config dev :
  inbox (readConfig_loop n config dev).2
  = drop (consumed n (inbox dev)) (inbox dev).
Proof.
  revert config dev. induction n as [|n IH]; intros config dev; [done|].
  cbn [readConfig_loop]. unfold mbind, IO_bind, readReport.
  destruct dev as [inb out con]. cbn [inbox outbox console].
  destruct inb as [|[e|] rest]; [done| |done].
  cbn [fmap option_fmap option_map consumed drop].
  generalize (fullReport e). intros r.
  destruct (isConfigFragment r);
    [destruct ((0 <=? peek r 3) && (peek r 3 <? 10))|].
  - unfold log.
    apply (IH (<[Z.to_nat (peek r 3):=Some r]> config)
              {| inbox := rest; outbox := out;
                 console := con ++ [LogCfg (peek r 3) r] |}).
  - apply (IH config {| inbox := rest; outbox := out; console := con |}).
  - apply (IH config {| inbox := rest; outbox := out; console := con |}).
Qed.

Lemma readConfig_inbox dev :
  inbox (readConfig dev).2 = drop (consumed 12 (inbox dev)) (inbox dev).
Proof.
  unfold readConfig. rewrite buildFrame_readFrame.
  rewrite (IO_bind_run _ _ dev readFrame dev) by reflexivity.
  rewrite sendReport_then.
  apply (readConfig_loop_inbox 12 (replicate 10 None)
    {| inbox := inbox dev; outbox := outbox dev ++ [readFrame];
       console := console dev ++ [LogTX readFrame] |}).
Qed.

Lemma polled_until_timeout n es rest :
  (length es < n)%nat →
  polled n ((Some <$> es) ++ None :: rest) = fullReport <$> es
  ∧ consumed n ((Some <$> es) ++ None :: rest) = S (length es).
Proof.
  revert n. induction es as [|e es IH]; intros [|n] Hn; cbn in *; try lia.
  - done.
  - destruct (IH n) as [-> ->]; [lia|]. done.
Qed.

Lemma polled_full_window n es rest :
  length es = n →
  polled n ((Some <$> es) ++ rest) = fullReport <$> es
  ∧ consumed n ((Some <$> es) ++ rest) = n.
Proof.
  revert n. induction es as [|e es IH]; intros [|n] Hn; cbn in *; try lia.
  - done.
  - destruct (IH n) as [-> ->]; [lia|]. done.
Qed.

(** X2. The polling of [readConfig] ends at the first timeout or after 12
    reports, whichever comes first: only the reports [es] received before
    that decide the result, and whatever the device delivers afterwards
    ([rest]) is not read by [readConfig] and stays queued for the receive
    attempts that follow. *)
Theorem readConfig_polling_window (dev : Device)
    (es : list HIDInputReportEvent) (rest : list (option HIDInputReportEvent)) :
  ((length es < 12)%nat ∧ inbox dev = (Some <$> es) ++ None :: rest)
  ∨ (length es = 12%nat ∧ inbox dev = (Some <$> es) ++ rest) →
  (readConfig dev).1
  = Done (foldl storeFragment (replicate 10 None) (fullReport <$> es))
  ∧ inbox (readConfig dev).2 = rest.
Proof.
  intros Hshape. destruct (readConfig_run dev) as (dev' & Hrun & _).
  rewrite readConfig_inbox, Hrun. unfold configRead. cbn [fst].
  destruct Hshape as [[Hlen ->]|[Hlen ->]].
  - destruct (polled_until_timeout 12 es rest Hlen) as [-> ->].
    split; [done|].
    rewrite drop_app_ge by (rewrite length_fmap; lia).
    rewrite length_fmap. by replace (S (length es) - length es)%nat with 1%nat by lia.
  - destruct (polled_full_window 12 es rest Hlen) as [-> ->].
    split; [done|].
    rewrite drop_app_ge by (rewrite length_fmap; lia).
    rewrite length_fmap, Hlen. done.
Qed.

Lemma readConfig_polling_window_witness :
  (readConfig lateDevice).1
  = Done (foldl storeFragment (replicate 10 None)
            (fullReport <$> take 3 sampleEvents))
  ∧ inbox (readConfig lateDevice).2 = Some <$> drop 3 sampleEvents.
Proof.
  apply (readConfig_polling_window lateDevice (take 3 sampleEvents)
           (Some <$> drop 3 sampleEvents)).
  left. split; [vm_compute; lia | reflexivity].
Defined.

(** ** What the rewrite of a read fragment leaves alone *)

Lemma setEffect_fromRead_untouched n opts sq r j :
  ¬ setEffect_touches n opts sq j →
  setEffect_fromRead n opts (effectTableLoc n) sq r !! j = r !! j.
Proof.
  intros Hno. unfold setEffect_touches in Hno.
  assert (H1 : j ≠ 1%nat) by (intros ->; apply Hno; auto).
  assert (H19 : j ≠ 19%nat) by (intros ->; apply Hno; auto).
  assert (H0 : sq = 0%nat → j ≠ 8%nat ∧ j ≠ 14%nat ∧ j ≠ 15%nat ∧ j ≠ 17%nat).
  { intros ->. repeat split; intros ->; apply Hno; right; right; left;
      split; auto. }
  assert (Ht : ∀ tgtOff, effectTableLoc n = Some (sq, tgtOff) →
             j ≠ (tgtOff + 1)%nat
             ∧ (is_Some (brightness opts) → j ≠ tgtOff)).
  { intros tgtOff Hloc. split; [|intros Hb]; intros ->; apply Hno;
      right; right; right; exists tgtOff; auto. }
  clear Hno. unfold setEffect_fromRead. cbv zeta.
  destruct (effectTableLoc n) as [[tgtSeq tgtOff]|].
  - destruct (decide (sq = 0%nat)) as [Hsq|Hsq];
      destruct (decide (sq = tgtSeq)) as [<-|Hne];
      try (destruct (Ht tgtOff eq_refl) as [Hs Hb]);
      try (destruct (H0 Hsq) as (? & ? & ? & ?));
      try (destruct (brightness opts) as [b|];
           [assert (j ≠ tgtOff) by (apply Hb; eauto)|]);
      unfold poke; rewrite !list_lookup_insert_ne by (auto; lia); done.
  - destruct (decide (sq = 0%nat)) as [Hsq|Hsq];
      try (destruct (H0 Hsq) as (? & ? & ? & ?));
      unfold poke; rewrite !list_lookup_insert_ne by (auto; lia); done.
Qed.

Lemma setEffect_touches_header n opts sq j :
  (j = 0 ∨ j = 2 ∨ j = 3)%nat → ¬ setEffect_touches n opts sq j.
Proof.
  intros Hj [->|[->|[[_ H]|(tgtOff & Hloc & H)]]]; try lia.
  apply effectTableLoc_Some in Hloc. lia.
Qed.

(** X3. Of a fragment it rewrites, [setEffect] changes nothing but the
    command byte (offset 1), the checksum (offset 19), in fragment 0 the
    confirm flag, apply flag, effect number and colour mode (offsets 8, 14,
    15, 17), and in the fragment of the chosen effect's table entry its speed
    byte and, when a brightness is given, its brightness byte.  Every other
    byte, the other effects' parameters among them, is written back as it was
    read. *)
Theorem setEffect_changes_only (CFG_TEMPLATE : list (list Z)) (dev : Device)
    (n : Z) (opts : EffectOptions) (sq j : nat) :
  gotConfig (configRead dev) = true →
  (sq < 10)%nat →
  ¬ setEffect_touches n opts sq j →
  ∃ W w,
    setEffect_writeFrames CFG_TEMPLATE (configRead dev) n opts = Some W
    ∧ W !! sq = Some w
    ∧ w !! j = fragment (configRead dev) sq !! j.
Proof.
  intros Hgot Hsq Hno. eexists _, _.
  split; [by apply setEffect_writeFrames_read|].
  split; [rewrite list_lookup_fmap, lookup_seq_lt by done; reflexivity|].
  by apply setEffect_fromRead_untouched.
Qed.

Lemma setEffect_changes_only_witness :
  ∃ W w,
    setEffect_writeFrames sampleTemplate (configRead sampleDevice) 2
      sampleOptions = Some W
    ∧ W !! 4%nat = Some w
    ∧ w !! 12%nat = fragment (configRead sampleDevice) 4 !! 12%nat.
Proof.
  apply (setEffect_changes_only sampleTemplate sampleDevice 2 sampleOptions
           4 12); [reflexivity | lia |].
  intros [H|[H|[[H _]|(tgtOff & Hloc & H)]]]; try lia.
  vm_compute in Hloc. injection Hloc as <-. lia.
Defined.

Lemma applyPerKey_fromRead_untouched sq r j :
  j ≠ 1%nat → j ≠ 19%nat →
  ¬ (sq = 0%nat ∧ (j = 8 ∨ j = 14 ∨ j = 15 ∨ j = 17)%nat) →
  applyPerKey_fromRead sq r !! j = r !! j.
Proof.
  intros H1 H19 H0. unfold applyPerKey_fromRead. cbv zeta.
  case_decide; unfold poke;
    rewrite !list_lookup_insert_ne by lia; done.
Qed.

Lemma setSleepTimer_fromRead_untouched b s r j :
  j ≠ 1%nat → j ≠ 19%nat →
  ¬ (s = 0%nat ∧ j = 8%nat) → ¬ (s = 1%nat ∧ j = 15%nat) →
  setSleepTimer_fromRead b s r !! j = r !! j.
Proof.
  intros H1 H19 H0 H15. unfold setSleepTimer_fromRead. cbv zeta.
  repeat case_decide; unfold poke;
    rewrite !list_lookup_insert_ne by lia; done.
Qed.

(** X4. [applyPerKey] and [setSleepTimer] write a complete read back
    unchanged but for the command byte and the checksum of every fragment
    and the bytes they are about: in fragment 0 the confirm flag, apply flag,
    effect number and colour mode for [applyPerKey]; the confirm flag of
    fragment 0 and byte 15 of fragment 1 for [setSleepTimer].  So neither
    disturbs the per-effect brightness and speed table, and [setSleepTimer]
    keeps the active effect and its colour mode. *)
Theorem perkey_and_sleep_change_only (CFG_TEMPLATE : list (list Z))
    (dev : Device) (minutes : Z) (sq j : nat) :
  gotConfig (configRead dev) = true →
  (sq < 10)%nat → j ≠ 1%nat → j ≠ 19%nat →
  (¬ (sq = 0%nat ∧ (j = 8 ∨ j = 14 ∨ j = 15 ∨ j = 17)%nat) →
   ∃ W w, applyPerKey_writeFrames CFG_TEMPLATE (configRead dev) = Some W
          ∧ W !! sq = Some w
          ∧ w !! j = fragment (configRead dev) sq !! j)
  ∧ (¬ (sq = 0%nat ∧ j = 8%nat) → ¬ (sq = 1%nat ∧ j = 15%nat) →
     ∃ w, sent (setSleepTimer minutes) dev !! S sq = Some w
          ∧ w !! j = fragment (configRead dev) sq !! j).
Proof.
  intros Hgot Hsq H1 H19. split.
  - intros H0. eexists _, _.
    split; [by apply applyPerKey_writeFrames_read|].
    split; [rewrite list_lookup_fmap, lookup_seq_lt by done; reflexivity|].
    by apply applyPerKey_fromRead_untouched.
  - intros H0 H15. eexists. split.
    + rewrite setSleepTimer_sent by done.
      rewrite lookup_after_readFrame
        by (unfold setSleepTimer_writeFrames;
            rewrite length_fmap, length_seq; lia).
      by apply setSleepTimer_writeFrames_lookup.
    + by apply setSleepTimer_fromRead_untouched.
Qed.

Lemma perkey_and_sleep_change_only_witness :
  (¬ (0%nat = 0%nat ∧ (15 = 8 ∨ 15 = 14 ∨ 15 = 15 ∨ 15 = 17)%nat) →
   ∃ W w, applyPerKey_writeFrames sampleTemplate (configRead sampleDevice)
          = Some W
          ∧ W !! 0%nat = Some w
          ∧ w !! 15%nat = fragment (configRead sampleDevice) 0 !! 15%nat)
  ∧ (¬ (0%nat = 0%nat ∧ 15%nat = 8%nat) → ¬ (0%nat = 1%nat ∧ 15%nat = 15%nat) →
     ∃ w, sent (setSleepTimer 5) sampleDevice !! 1%nat = Some w
          ∧ w !! 15%nat = fragment (configRead sampleDevice) 0 !! 15%nat).
Proof.
  apply (perkey_and_sleep_change_only sampleTemplate sampleDevice 5 0 15);
    [reflexivity | lia | lia | lia].
Defined.

(** ** Well-formed frames *)

Lemma buildFrame_fields cmd sub sq p f :
  buildFrame cmd sub sq p = Some f →
  length f = 20%nat ∧ f !! 0%nat = Some REPORT_ID
  ∧ f !! 1%nat = Some (wrap8 cmd) ∧ f !! 2%nat = Some (wrap8 sub)
  ∧ f !! 3%nat = Some (wrap8 sq) ∧ f !! 19%nat = Some (checksum f).
Proof.
  unfold buildFrame. case_decide as Hlen; [|done]. cbv zeta.
  set (body := [REPORT_ID; wrap8 cmd; wrap8 sub; wrap8 sq]
                 ++ newUint8Array p ++ zeros (15 - length p)).
  intros Hf. apply (inj Some) in Hf. subst f.
  assert (Hbody : length body = 19%nat).
  { unfold body, newUint8Array, zeros.
    rewrite !length_app, length_fmap, length_replicate. cbn. lia. }
  split; [rewrite length_app, Hbody; done|].
  repeat split; try done.
  rewrite lookup_app_r by lia. rewrite Hbody.
  change ([checksum body] !! (19 - 19)%nat) with (Some (checksum body)).
  unfold checksum. by rewrite take_app_le by lia.
Qed.

Lemma buildFrame_valid cmd sub sq p f :
  buildFrame cmd sub sq p = Some f → validFrame f.
Proof.
  intros H. apply buildFrame_fields in H as (Hlen & H0 & _ & _ & _ & H19).
  split; [lia | done].
Qed.

Lemma mapM_Forall {A B} (f : A → option B) (P : B → Prop) l W :
  mapM f l = Some W → (∀ x w, f x = Some w → P w) → Forall P W.
Proof.
  intros HW HP. apply mapM_Some_1 in HW.
  induction HW; constructor; eauto.
Qed.

Lemma stored_checksum_valid g :
  (20 ≤ length g)%nat → g !! 0%nat = Some REPORT_ID →
  validFrame (poke g 19 (checksum g)).
Proof.
  intros Hlen H0. split; [by rewrite length_poke|]. split.
  - by rewrite poke_lookup_ne.
  - rewrite checksum_stored by done. f_equal. apply wrap8_byte, checksum_range.
Qed.

Lemma setEffect_fromRead_valid n opts sq r :
  (20 ≤ length r)%nat → r !! 0%nat = Some REPORT_ID →
  validFrame (setEffect_fromRead n opts (effectTableLoc n) sq r).
Proof.
  intros Hlen H0.
  pose proof (setEffect_fromRead_untouched n opts sq r 0
                (setEffect_touches_header n opts sq 0 (or_introl eq_refl)))
    as Hkeep.
  unfold setEffect_fromRead in *. cbv zeta in *.
  match goal with |- validFrame (poke ?g 19 _) =>
    assert (Hg : length g = length r);
      [|apply stored_checksum_valid;
         [lia | by rewrite poke_lookup_ne in Hkeep by lia; rewrite Hkeep]]
  end.
  destruct (effectTableLoc n) as [[tgtSeq tgtOff]|];
    repeat case_decide; repeat case_match; by rewrite ?length_poke.
Qed.

Lemma applyPerKey_fromRead_valid sq r :
  (20 ≤ length r)%nat → r !! 0%nat = Some REPORT_ID →
  validFrame (applyPerKey_fromRead sq r).
Proof.
  intros Hlen H0. unfold applyPerKey_fromRead. cbv zeta.
  apply stored_checksum_valid; case_decide; rewrite ?length_poke; try lia;
    unfold poke; by rewrite !list_lookup_insert_ne by lia.
Qed.

Lemma setSleepTimer_fromRead_valid b s r :
  (20 ≤ length r)%nat → r !! 0%nat = Some REPORT_ID →
  validFrame (setSleepTimer_fromRead b s r).
Proof.
  intros Hlen H0. unfold setSleepTimer_fromRead. cbv zeta.
  apply stored_checksum_valid; repeat case_decide; rewrite ?length_poke;
    try lia; unfold poke; by rewrite !list_lookup_insert_ne by lia.
Qed.

Lemma perkey_fragments_valid plane ss st st' :
  perkey_fragments plane ss st = Some st' →
  Forall validFrame st.1 → Forall validFrame st'.1.
Proof.
  revert st. induction ss as [|s ss IH]; intros st; cbn [perkey_fragments].
  - by intros [= <-].
  - destruct (buildFrame _ _ _ _) as [f|] eqn:Hf; [|done].
    cbn [mbind option_bind]. intros Hrun Hst. apply (IH _ Hrun).
    cbn [fst]. apply Forall_app. split; [done|].
    constructor; [by eapply buildFrame_valid | constructor].
Qed.

Lemma perkey_planes_valid planes st st' :
  perkey_planes planes st = Some st' →
  Forall validFrame st.1 → Forall validFrame st'.1.
Proof.
  revert st. induction planes as [|plane planes IH]; intros st;
    cbn [perkey_planes].
  - by intros [= <-].
  - destruct (perkey_fragments plane (seq 0 9) st) as [st1|] eqn:H1; [|done].
    cbn [mbind option_bind]. intros Hrun Hst.
    apply (IH _ Hrun). by eapply perkey_fragments_valid.
Qed.

Lemma applyPerKey_perkeyFrames_valid keyColors K :
  applyPerKey_perkeyFrames keyColors = Some K → Forall validFrame K.
Proof.
  unfold applyPerKey_perkeyFrames.
  destruct (perKeyPlanes keyColors) as [[R G] B].
  destruct (perkey_planes [R; G; B] ([], 0)) as [st|] eqn:Hst; [|done].
  cbn [mbind option_bind].
  destruct (buildFrame _ _ _ trailer) as [t|] eqn:Ht; [|done].
  cbn [mbind option_bind]. intros [= <-]. apply Forall_app. split.
  - by apply (perkey_planes_valid _ _ _ Hst).
  - constructor; [by eapply buildFrame_valid | constructor].
Qed.

Lemma readFrame_valid : validFrame readFrame.
Proof. eapply buildFrame_valid, buildFrame_readFrame. Qed.

Lemma saveFrame_valid : validFrame saveFrame.
Proof. eapply buildFrame_valid, buildFrame_saveFrame. Qed.

Lemma configRead_fragment_valid dev sq :
  gotConfig (configRead dev) = true → (sq < 10)%nat →
  (20 ≤ length (fragment (configRead dev) sq))%nat
  ∧ fragment (configRead dev) sq !! 0%nat = Some REPORT_ID.
Proof.
  intros Hgot Hsq.
  destruct (configRead_fragment dev sq Hgot Hsq) as (r & _ & -> & Hfrag & _).
  destruct Hfrag as (? & ? & _). done.
Qed.

Section Transactions.

Variable CFG_TEMPLATE : list (list Z).
Variable PAL_TEMPLATE : list (list Z).
Variable PAL_ZEROS : list Z.
Variable PAL_LAST : list Z.

Local Abbreviation setEffect' :=
  (setEffect CFG_TEMPLATE PAL_TEMPLATE PAL_ZEROS PAL_LAST).
Local Abbreviation factoryReset' :=
  (factoryReset CFG_TEMPLATE PAL_TEMPLATE PAL_ZEROS PAL_LAST).
Local Abbreviation palFrames' :=
  (setEffect_palFrames PAL_TEMPLATE PAL_ZEROS PAL_LAST).
Local Abbreviation resetPalFrames' :=
  (factoryReset_palFrames PAL_TEMPLATE PAL_ZEROS PAL_LAST).

Lemma factoryReset_run dev :
  let out := factoryReset' dev in
  match factoryReset_cfgFrames CFG_TEMPLATE with
  | None => out.1 = Thrown ∧ outbox out.2 = outbox dev ++ []
  | Some W =>
      match resetPalFrames' with
      | None => out.1 = Thrown ∧ outbox out.2 = outbox dev ++ W
      | Some P =>
          out.1 = Done () ∧ outbox out.2 = outbox dev ++ W ++ P ++ [saveFrame]
      end
  end.
Proof.
  cbv zeta. unfold factoryReset. do 2 io_step.
  destruct (factoryReset_cfgFrames CFG_TEMPLATE) as [W|].
  - io_step. io_step. io_step.
    destruct resetPalFrames' as [P|].
    + io_step. io_step. io_step. io_step. unfold log.
      split; [done|]. by io_outbox.
    + io_step. split; [done|]. by io_outbox.
  - io_step. split; [done|]. cbn [snd outbox]. by rewrite app_nil_r.
Qed.

Lemma Forall_fmap_seq {B} (P : B → Prop) (f : nat → B) (m : nat) :
  (∀ i, (i < m)%nat → P (f i)) → Forall P (f <$> seq 0 m).
Proof.
  intros H. rewrite Forall_fmap, Forall_forall. intros sq Hsq.
  apply list_elem_of_lookup in Hsq as [i Hi].
  apply lookup_seq in Hi as [-> Hi]. by apply H.
Qed.

Lemma setEffect_writeFrames_valid dev n opts W :
  setEffect_writeFrames CFG_TEMPLATE (configRead dev) n opts = Some W →
  Forall validFrame W.
Proof.
  destruct (gotConfig (configRead dev)) eqn:Hgot.
  - rewrite setEffect_writeFrames_read by done.
    intros HW. apply (inj Some) in HW. subst W.
    apply Forall_fmap_seq. intros i Hi.
    destruct (configRead_fragment_valid dev i Hgot Hi).
    by apply setEffect_fromRead_valid.
  - rewrite setEffect_writeFrames_template by done. intros HW.
    apply (mapM_Forall _ _ _ _ HW). intros sq w.
    unfold setEffect_fromTemplate. apply buildFrame_valid.
Qed.

Lemma applyPerKey_writeFrames_valid dev W :
  applyPerKey_writeFrames CFG_TEMPLATE (configRead dev) = Some W →
  Forall validFrame W.
Proof.
  destruct (gotConfig (configRead dev)) eqn:Hgot.
  - rewrite applyPerKey_writeFrames_read by done.
    intros HW. apply (inj Some) in HW. subst W.
    apply Forall_fmap_seq. intros i Hi.
    destruct (configRead_fragment_valid dev i Hgot Hi).
    by apply applyPerKey_fromRead_valid.
  - rewrite applyPerKey_writeFrames_template by done. intros HW.
    apply (mapM_Forall _ _ _ _ HW). intros sq w.
    unfold applyPerKey_fromTemplate. apply buildFrame_valid.
Qed.

Lemma setSleepTimer_writeFrames_valid dev b :
  gotConfig (configRead dev) = true →
  Forall validFrame (setSleepTimer_writeFrames (configRead dev) b).
Proof.
  intros Hgot. unfold setSleepTimer_writeFrames.
  apply Forall_fmap_seq. intros i Hi.
  destruct (configRead_fragment_valid dev i Hgot Hi).
  by apply setSleepTimer_fromRead_valid.
Qed.

(** X5. Whatever the device answers and whatever the arguments, every frame
    that [setEffect], [applyPerKey], [setSleepTimer] or [factoryReset] hands
    to the device has at least 20 bytes, starts with the report id and
    carries at offset 19 the checksum of its first 19 bytes: no frame is
    sent with a stale checksum, on the read path as on the template path. *)
Theorem sent_frames_valid (dev : Device) :
  (∀ n opts, Forall validFrame (sent (setEffect' n opts) dev))
  ∧ (∀ keyColors,
       Forall validFrame (sent (applyPerKey CFG_TEMPLATE keyColors) dev))
  ∧ (∀ minutes, Forall validFrame (sent (setSleepTimer minutes) dev))
  ∧ Forall validFrame (sent factoryReset' dev).
Proof.
  pose proof readFrame_valid as Hread. pose proof saveFrame_valid as Hsave.
  split; [|split; [|split]].
  - intros n opts. destruct (EFFECTS n) as [eff|] eqn:Heff.
    + pose proof (setEffect_run CFG_TEMPLATE PAL_TEMPLATE PAL_ZEROS PAL_LAST
                    n eff opts dev Heff) as Hrun. cbv zeta in Hrun.
      destruct (setEffect_writeFrames _ _ n opts) as [W|] eqn:HW.
      * apply setEffect_writeFrames_valid in HW.
        destruct (palFrames' opts) as [P|] eqn:HP; destruct Hrun as [_ Hout];
          rewrite (sent_outbox _ _ _ Hout).
        -- apply (mapM_Forall _ validFrame) in HP;
             [|intros i w; apply buildFrame_valid].
           constructor; [done|]. rewrite !Forall_app. repeat split; try done.
           by constructor.
        -- by constructor.
      * destruct Hrun as [_ Hout]. rewrite (sent_outbox _ _ _ Hout).
        by constructor.
    + unfold sent, setEffect. rewrite Heff. unfold log. cbn [snd outbox].
      by rewrite drop_all.
  - intros keyColors.
    pose proof (applyPerKey_run CFG_TEMPLATE keyColors dev) as Hrun.
    cbv zeta in Hrun.
    destruct (applyPerKey_writeFrames _ _) as [W|] eqn:HW.
    + apply applyPerKey_writeFrames_valid in HW.
      destruct (applyPerKey_perkeyFrames keyColors) as [K|] eqn:HK;
        destruct Hrun as [_ Hout]; rewrite (sent_outbox _ _ _ Hout).
      * apply applyPerKey_perkeyFrames_valid in HK.
        constructor; [done|]. rewrite !Forall_app. repeat split; try done.
        by constructor.
      * by constructor.
    + destruct Hrun as [_ Hout]. rewrite (sent_outbox _ _ _ Hout).
      by constructor.
  - intros minutes.
    destruct (setSleepTimer_run minutes dev) as (dev' & Hrun & Hout).
    destruct (gotConfig (configRead dev)) eqn:Hgot.
    + rewrite (sent_outbox (setSleepTimer minutes) dev _)
        by (by rewrite Hrun).
      constructor; [done|]. rewrite Forall_app. split.
      * by apply setSleepTimer_writeFrames_valid.
      * by constructor.
    + destruct Hout as [Hout _].
      rewrite (sent_outbox (setSleepTimer minutes) dev _)
        by (by rewrite Hrun).
      by constructor.
  - pose proof (factoryReset_run dev) as Hrun. cbv zeta in Hrun.
    destruct (factoryReset_cfgFrames CFG_TEMPLATE) as [W|] eqn:HW.
    + apply (mapM_Forall _ validFrame) in HW;
        [|intros i w; apply buildFrame_valid].
      destruct resetPalFrames' as [P|] eqn:HP; destruct Hrun as [_ Hout];
        rewrite (sent_outbox _ _ _ Hout).
      * apply (mapM_Forall _ validFrame) in HP;
          [|intros i w; apply buildFrame_valid].
        rewrite !Forall_app. repeat split; try done. by constructor.
      * done.
    + destruct Hrun as [_ Hout]. rewrite (sent_outbox _ _ _ Hout).
      constructor.
Qed.

End Transactions.

(** ** The header of the config write frames *)

Lemma setEffect_fromRead_command n opts sq r :
  (20 ≤ length r)%nat →
  setEffect_fromRead n opts (effectTableLoc n) sq r !! 1%nat = Some CMD_WRITE.
Proof.
  intros Hlen. unfold setEffect_fromRead. cbv zeta.
  destruct (effectTableLoc n) as [[tgtSeq tgtOff]|] eqn:Hloc.
  - apply effectTableLoc_Some in Hloc as (_ & Hseq & Hoff).
    repeat case_decide; repeat case_match; try lia; by poke_lookup.
  - case_decide; by poke_lookup.
Qed.

Lemma applyPerKey_fromRead_command sq r :
  (20 ≤ length r)%nat → applyPerKey_fromRead sq r !! 1%nat = Some CMD_WRITE.
Proof.
  intros Hlen. unfold applyPerKey_fromRead. cbv zeta.
  case_decide; by poke_lookup.
Qed.

Lemma setSleepTimer_fromRead_command b s r :
  (20 ≤ length r)%nat →
  setSleepTimer_fromRead b s r !! 1%nat = Some CMD_WRITE.
Proof.
  intros Hlen. unfold setSleepTimer_fromRead. cbv zeta.
  repeat case_decide; try lia; by poke_lookup.
Qed.

Lemma lookup_fmap_seq {B} (f : nat → B) (m k : nat) (y : B) :
  (f <$> seq 0 m) !! k = Some y → (k < m)%nat ∧ y = f k.
Proof.
  rewrite list_lookup_fmap. destruct (seq 0 m !! k) as [i|] eqn:Hi; [|done].
  apply lookup_seq in Hi as [-> Hk]. by intros [= <-].
Qed.

Lemma mapM_seq_lookup {B} (f : nat → option B) (m k : nat) W w :
  mapM f (seq 0 m) = Some W → W !! k = Some w → (k < m)%nat ∧ f k = Some w.
Proof.
  intros HW Hw. apply mapM_Some_1 in HW.
  destruct (Forall2_lookup_r _ _ _ _ _ HW Hw) as (i & Hi & Hf).
  apply lookup_seq in Hi as [-> Hk]. done.
Qed.

Lemma buildFrame_configHeader k p f :
  (k < 10)%nat →
  buildFrame CMD_WRITE SUBCMD_CONFIG (Z.of_nat k) p = Some f →
  configHeader k f.
Proof.
  intros Hk Hf.
  apply buildFrame_fields in Hf as (_ & H0 & H1 & H2 & H3 & _).
  repeat split; try done. rewrite H3. f_equal. apply wrap8_byte. lia.
Qed.

Lemma fragment_configHeader dev k w :
  gotConfig (configRead dev) = true → (k < 10)%nat →
  w !! 1%nat = Some CMD_WRITE →
  (∀ j, (j = 0 ∨ j = 2 ∨ j = 3)%nat →
        w !! j = fragment (configRead dev) k !! j) →
  configHeader k w.
Proof.
  intros Hgot Hk H1 Hkeep.
  destruct (configRead_fragment dev k Hgot Hk) as (r & _ & Hr & Hfrag & _).
  destruct Hfrag as (_ & R0 & _ & R2 & R3). rewrite Hr in Hkeep.
  repeat split; [|done| |]; rewrite Hkeep by auto; done.
Qed.

(** X6. On either path, the [k]-th config frame that [setEffect],
    [applyPerKey], [setSleepTimer] or [factoryReset] writes is addressed as
    fragment [k]: report id, command WRITE, subcommand CONFIG, sequence [k].
    On the read path the sequence and subcommand are those of the fragment
    read into slot [k]; on the template path they are set by the frame
    builder. *)
Theorem config_frames_header (CFG_TEMPLATE : list (list Z)) (dev : Device)
    (k : nat) (f : list Z) :
  (∀ n opts W,
      setEffect_writeFrames CFG_TEMPLATE (configRead dev) n opts = Some W →
      W !! k = Some f → configHeader k f)
  ∧ (∀ W, applyPerKey_writeFrames CFG_TEMPLATE (configRead dev) = Some W →
          W !! k = Some f → configHeader k f)
  ∧ (∀ b, gotConfig (configRead dev) = true →
          setSleepTimer_writeFrames (configRead dev) b !! k = Some f →
          configHeader k f)
  ∧ (∀ W, factoryReset_cfgFrames CFG_TEMPLATE = Some W →
          W !! k = Some f → configHeader k f).
Proof.
  split; [|split; [|split]].
  - intros n opts W HW Hf. destruct (gotConfig (configRead dev)) eqn:Hgot.
    + rewrite setEffect_writeFrames_read in HW by done.
      apply (inj Some) in HW. subst W.
      apply lookup_fmap_seq in Hf as [Hk ->].
      destruct (configRead_fragment_valid dev k Hgot Hk) as [Hlen _].
      apply (fragment_configHeader dev k); try done.
      * by apply setEffect_fromRead_command.
      * intros j Hj. apply setEffect_fromRead_untouched.
        by apply setEffect_touches_header.
    + rewrite setEffect_writeFrames_template in HW by done.
      destruct (mapM_seq_lookup _ _ _ _ _ HW Hf) as [Hk Hb].
      by apply (buildFrame_configHeader k _ f Hk Hb).
  - intros W HW Hf. destruct (gotConfig (configRead dev)) eqn:Hgot.
    + rewrite applyPerKey_writeFrames_read in HW by done.
      apply (inj Some) in HW. subst W.
      apply lookup_fmap_seq in Hf as [Hk ->].
      destruct (configRead_fragment_valid dev k Hgot Hk) as [Hlen _].
      apply (fragment_configHeader dev k); try done.
      * by apply applyPerKey_fromRead_command.
      * intros j Hj. apply applyPerKey_fromRead_untouched; lia.
    + rewrite applyPerKey_writeFrames_template in HW by done.
      destruct (mapM_seq_lookup _ _ _ _ _ HW Hf) as [Hk Hb].
      by apply (buildFrame_configHeader k _ f Hk Hb).
  - intros b Hgot Hf. unfold setSleepTimer_writeFrames in Hf.
    apply lookup_fmap_seq in Hf as [Hk ->].
    destruct (configRead_fragment_valid dev k Hgot Hk) as [Hlen _].
    apply (fragment_configHeader dev k); try done.
    + by apply setSleepTimer_fromRead_command.
    + intros j Hj. apply setSleepTimer_fromRead_untouched; lia.
  - intros W HW Hf. unfold factoryReset_cfgFrames in HW.
    destruct (mapM_seq_lookup _ _ _ _ _ HW Hf) as [Hk Hb].
    by apply (buildFrame_configHeader k _ f Hk Hb).
Qed.

(** ** What fragment 0 asks for *)

Lemma colorMode_byte opts : wrap8 (colorMode opts) = colorMode opts.
Proof. unfold colorMode. by destruct (_ || _). Qed.

Lemma peek_poke_eq f i v : (i < length f)%nat → peek (poke f i v) i = wrap8 v.
Proof. intros. unfold peek. by rewrite poke_lookup_eq. Qed.

Lemma fragment0_payload_fields p effectNum mode f :
  (14 ≤ length p ≤ 15)%nat →
  buildFrame CMD_WRITE SUBCMD_CONFIG 0
    (poke (poke (poke (poke p 4 0x01) 10 0x00) 11 effectNum) 13 mode) = Some f →
  f !! 8%nat = Some 0x01 ∧ f !! 14%nat = Some 0x00
  ∧ f !! 15%nat = Some (wrap8 effectNum) ∧ f !! 17%nat = Some (wrap8 mode).
Proof.
  intros Hlen Hf.
  pose proof (buildFrame_lookup_payload _ _ _ _ _ 4 Hf) as H8.
  pose proof (buildFrame_lookup_payload _ _ _ _ _ 10 Hf) as H14.
  pose proof (buildFrame_lookup_payload _ _ _ _ _ 11 Hf) as H15.
  pose proof (buildFrame_lookup_payload _ _ _ _ _ 13 Hf) as H17.
  rewrite !length_poke in *. cbn [Nat.add] in *.
  rewrite H8, H14, H15, H17 by lia.
  repeat first
    [ rewrite peek_poke_ne by lia
    | rewrite peek_poke_eq by (rewrite ?length_poke; lia) ].
  by rewrite !wrap8_idemp.
Qed.

(** X7. Whether the config was read or the template substitutes for it,
    the fragment-0 frame of [setEffect] carries confirm flag 0x01 (offset 8),
    apply flag 0x00 (offset 14), the effect number modulo 256 (offset 15) and
    the colour mode (offset 17: 0x01 when a custom colour or colorful is
    asked for, 0x03 otherwise); that of [applyPerKey] carries 0x01, 0x00,
    effect 21 and colour mode 0x01.  On the template path this needs the
    template payload of fragment 0 to reach offset 17 (14 or 15 bytes). *)
Theorem fragment0_request (CFG_TEMPLATE : list (list Z)) (dev : Device)
    (p : list Z) :
  gotConfig (configRead dev) = true
  ∨ (CFG_TEMPLATE !! 0%nat = Some p ∧ (14 ≤ length p ≤ 15)%nat) →
  (∀ n opts W w,
      setEffect_writeFrames CFG_TEMPLATE (configRead dev) n opts = Some W →
      W !! 0%nat = Some w →
      w !! 8%nat = Some 0x01 ∧ w !! 14%nat = Some 0x00
      ∧ w !! 15%nat = Some (n mod 256)
      ∧ w !! 17%nat = Some (colorMode opts))
  ∧ (∀ W w,
      applyPerKey_writeFrames CFG_TEMPLATE (configRead dev) = Some W →
      W !! 0%nat = Some w →
      w !! 8%nat = Some 0x01 ∧ w !! 14%nat = Some 0x00
      ∧ w !! 15%nat = Some SELF_DEFINE_EFFECT ∧ w !! 17%nat = Some 0x01).
Proof.
  intros Hcase. split.
  - intros n opts W w HW Hw.
    destruct (gotConfig (configRead dev)) eqn:Hgot.
    + rewrite setEffect_writeFrames_read in HW by done.
      apply (inj Some) in HW. subst W.
      apply lookup_fmap_seq in Hw as [Hk ->].
      destruct (configRead_fragment_valid dev 0 Hgot Hk) as [Hlen _].
      unfold setEffect_fromRead. cbv zeta.
      rewrite decide_True by done.
      destruct (effectTableLoc n) as [[tgtSeq tgtOff]|] eqn:Hloc.
      * apply effectTableLoc_Some in Hloc as (_ & Hseq & Hoff).
        destruct (decide (0%nat = tgtSeq)); [lia|].
        poke_lookup. by rewrite colorMode_byte.
      * poke_lookup. by rewrite colorMode_byte.
    + destruct Hcase as [?|[Hp Hlen]]; [done|].
      rewrite setEffect_writeFrames_template in HW by done.
      destruct (mapM_seq_lookup _ _ _ _ _ HW Hw) as [_ Hb].
      unfold setEffect_fromTemplate in Hb. rewrite Hp in Hb.
      cbn [default from_option] in Hb. unfold id in Hb. cbv zeta in Hb.
      rewrite decide_True in Hb by done.
      assert (Hb' : buildFrame CMD_WRITE SUBCMD_CONFIG 0
                (poke (poke (poke (poke (newUint8Array p) 4 1) 10 0) 11 n) 13
                   (colorMode opts)) = Some w).
      { destruct (effectTableLoc n) as [[tgtSeq tgtOff]|] eqn:Hloc; [|done].
        apply effectTableLoc_Some in Hloc as (_ & Hseq & Hoff).
        destruct (decide (0%nat = tgtSeq)); [lia | done]. }
      apply fragment0_payload_fields in Hb'
        as (? & ? & ? & H17);
        [|unfold newUint8Array; by rewrite length_fmap].
      rewrite colorMode_byte in H17. done.
  - intros W w HW Hw.
    destruct (gotConfig (configRead dev)) eqn:Hgot.
    + rewrite applyPerKey_writeFrames_read in HW by done.
      apply (inj Some) in HW. subst W.
      apply lookup_fmap_seq in Hw as [Hk ->].
      destruct (configRead_fragment_valid dev 0 Hgot Hk) as [Hlen _].
      unfold applyPerKey_fromRead. cbv zeta.
      rewrite decide_True by done. by poke_lookup.
    + destruct Hcase as [?|[Hp Hlen]]; [done|].
      rewrite applyPerKey_writeFrames_template in HW by done.
      destruct (mapM_seq_lookup _ _ _ _ _ HW Hw) as [_ Hb].
      unfold applyPerKey_fromTemplate in Hb. rewrite Hp in Hb.
      cbn [default from_option] in Hb. unfold id in Hb. cbv zeta in Hb.
      rewrite decide_True in Hb by done.
      apply fragment0_payload_fields in Hb;
        [|unfold newUint8Array; by rewrite length_fmap].
      done.
Qed.

Lemma fragment0_request_witness :
  (∀ n opts W w,
      setEffect_writeFrames sampleTemplate (configRead silentDevice) n opts
      = Some W →
      W !! 0%nat = Some w →
      w !! 8%nat = Some 0x01 ∧ w !! 14%nat = Some 0x00
      ∧ w !! 15%nat = Some (n mod 256)
      ∧ w !! 17%nat = Some (colorMode opts))
  ∧ (∀ W w,
      applyPerKey_writeFrames sampleTemplate (configRead silentDevice)
      = Some W →
      W !! 0%nat = Some w →
      w !! 8%nat = Some 0x01 ∧ w !! 14%nat = Some 0x00
      ∧ w !! 15%nat = Some SELF_DEFINE_EFFECT ∧ w !! 17%nat = Some 0x01).
Proof.
  apply (fragment0_request sampleTemplate silentDevice
           [0x0e; 0; 4; 4; 1; 0; 0; 4; 4; 7; 1; 3; 0x20; 3; 0]).
  right. split; [reflexivity | cbn; lia].
Defined.

(** ** The palette *)

Section Palette.

Variable PAL_TEMPLATE : list (list Z).
Variable PAL_ZEROS : list Z.
Variable PAL_LAST : list Z.

Local Abbreviation slot' := (paletteSlot PAL_TEMPLATE PAL_ZEROS PAL_LAST).
Local Abbreviation payload' :=
  (palettePayload PAL_TEMPLATE PAL_ZEROS PAL_LAST).
Local Abbreviation palFrames' :=
  (setEffect_palFrames PAL_TEMPLATE PAL_ZEROS PAL_LAST).
Local Abbreviation resetPalFrames' :=
  (factoryReset_palFrames PAL_TEMPLATE PAL_ZEROS PAL_LAST).

Lemma palettePayload_slot opts i :
  payload' opts i
  = match colorRgb opts with
    | Some (r, g, b) =>
        if decide (i = 1%nat)
        then poke (poke (poke (poke (newUint8Array (slot' i)) 8 r) 9 g) 10 b)
               12 0xff
        else newUint8Array (slot' i)
    | None => newUint8Array (slot' i)
    end.
Proof.
  unfold palettePayload, paletteSlot.
  destruct (colorRgb opts) as [[[r g] b]|]; repeat case_decide; done.
Qed.

Lemma length_palettePayload opts i :
  length (payload' opts i) = length (slot' i).
Proof.
  rewrite palettePayload_slot.
  destruct (colorRgb opts) as [[[r g] b]|]; [case_decide|];
    unfold newUint8Array; by rewrite ?length_poke, length_fmap.
Qed.

Lemma buildFrame_slot_same opts i sq :
  colorRgb opts = None ∨ i ≠ 1%nat →
  buildFrame CMD_COLOR SUBCMD_PALETTE sq (payload' opts i)
  = buildFrame CMD_COLOR SUBCMD_PALETTE sq (slot' i).
Proof.
  intros Hcase. rewrite palettePayload_slot.
  destruct (colorRgb opts) as [[[r g] b]|]; [case_decide|];
    try apply buildFrame_wrap.
  by destruct Hcase.
Qed.

(** X8. The palette phase of [setEffect] always sends the whole 37-slot
    palette.  Without a custom colour it is exactly the palette that
    [factoryReset] sends; with a custom colour it differs from it in slot 1
    only, whose frame carries the colour modulo 256 at offsets 12, 13, 14 and
    the active flag 0xff at offset 16 (the slot-1 template having at least
    13 bytes) and the slot's other template bytes unchanged.  Nothing else of
    the options (effect, brightness, speed, colorful) reaches the palette. *)
Theorem palette_is_factory_but_slot_1 (opts : EffectOptions)
    (P : list (list Z)) :
  palFrames' opts = Some P →
  length P = 37%nat
  ∧ ∃ F, resetPalFrames' = Some F
      ∧ (colorRgb opts = None → P = F)
      ∧ (∀ i, i ≠ 1%nat → P !! i = F !! i)
      ∧ ∀ r g b, colorRgb opts = Some (r, g, b) →
          (13 ≤ length (slot' 1))%nat →
          ∃ f1 F1, P !! 1%nat = Some f1 ∧ F !! 1%nat = Some F1
            ∧ f1 !! 12%nat = Some (r mod 256)
            ∧ f1 !! 13%nat = Some (g mod 256)
            ∧ f1 !! 14%nat = Some (b mod 256)
            ∧ f1 !! 16%nat = Some 0xff
            ∧ ∀ k, (k < length (slot' 1))%nat →
                k ≠ 8%nat → k ≠ 9%nat → k ≠ 10%nat → k ≠ 12%nat →
                f1 !! (4 + k)%nat = F1 !! (4 + k)%nat.
Proof.
  intros HP.
  assert (Hlen : length P = 37%nat)
    by (apply length_mapM in HP; by rewrite length_seq in HP).
  split; [done|].
  assert (Hfit : ∀ i, (i < 37)%nat → (length (slot' i) ≤ 15)%nat).
  { intros i Hi.
    destruct (lookup_lt_is_Some_2 P i) as [f Hf]; [lia|].
    destruct (mapM_seq_lookup _ _ _ _ _ HP Hf) as [_ Hb].
    unfold buildFrame in Hb. case_decide as Hl; [|done].
    by rewrite length_palettePayload in Hl. }
  destruct resetPalFrames' as [F|] eqn:HF.
  2:{ apply mapM_None, Exists_exists in HF as (i & Hi & Hnone).
      apply list_elem_of_lookup in Hi as [k Hk].
      apply lookup_seq in Hk as [-> Hk]. cbn [Nat.add] in Hnone.
      destruct (buildFrame_is_Some CMD_COLOR SUBCMD_PALETTE (Z.of_nat k)
                  (slot' k) (Hfit k Hk)) as [f Hf].
      unfold paletteSlot in Hf. congruence. }
  exists F. split; [done|].
  assert (Hother : ∀ i, colorRgb opts = None ∨ i ≠ 1%nat → P !! i = F !! i).
  { intros i Hcase. destruct (decide (i < 37)%nat) as [Hi|Hi].
    - destruct (lookup_lt_is_Some_2 P i) as [f Hf]; [lia|].
      destruct (mapM_seq_lookup _ _ _ _ _ HP Hf) as [_ Hb].
      rewrite buildFrame_slot_same in Hb by done.
      assert (Hk : seq 0 37 !! i = Some i) by (by rewrite lookup_seq_lt).
      destruct (mapM_lookup _ _ _ _ _ HF Hk) as (f' & Hf' & Hb').
      unfold paletteSlot in Hb. rewrite Hf, Hf'. congruence.
    - apply length_mapM in HF. rewrite length_seq in HF.
      by rewrite !lookup_ge_None_2 by lia. }
  split; [|split].
  - intros Hnone. apply list_eq. intros i. apply Hother. by left.
  - intros i Hi. apply Hother. by right.
  - intros r g b Hrgb Hslot.
    destruct (lookup_lt_is_Some_2 P 1) as [f1 Hf1]; [lia|].
    destruct (mapM_seq_lookup _ _ _ _ _ HP Hf1) as [_ Hb].
    assert (Hk : seq 0 37 !! 1%nat = Some 1%nat) by done.
    destruct (mapM_lookup _ _ _ _ _ HF Hk) as (F1 & HF1 & HbF).
    exists f1, F1. split; [done|]. split; [done|].
    rewrite palettePayload_slot, Hrgb in Hb. rewrite decide_True in Hb by done.
    assert (Hn : length (newUint8Array (slot' 1)) = length (slot' 1))
      by (unfold newUint8Array; by rewrite length_fmap).
    pose proof (λ k, buildFrame_lookup_payload _ _ _ _ _ k Hb) as Hget.
    rewrite !length_poke, Hn in Hget.
    pose proof (Hget 8%nat ltac:(lia)) as G8.
    pose proof (Hget 9%nat ltac:(lia)) as G9.
    pose proof (Hget 10%nat ltac:(lia)) as G10.
    pose proof (Hget 12%nat ltac:(lia)) as G12.
    cbn [Nat.add] in G8, G9, G10, G12. rewrite G8, G9, G10, G12.
    repeat first
      [ rewrite peek_poke_ne by lia
      | rewrite peek_poke_eq by (rewrite ?length_poke, ?Hn; lia) ].
    rewrite !wrap8_idemp.
    split; [reflexivity|]. split; [reflexivity|]. split; [reflexivity|].
    split; [reflexivity|].
    intros k Hk' H8 H9 H10 H12. rewrite Hget by done.
    rewrite !peek_poke_ne by lia.
    fold (paletteSlot PAL_TEMPLATE PAL_ZEROS PAL_LAST 1) in HbF.
    rewrite (buildFrame_lookup_payload _ _ _ _ _ k HbF) by done.
    unfold newUint8Array, peek. rewrite list_lookup_fmap.
    destruct (slot' 1 !! k); cbn; by rewrite ?wrap8_idemp.
Qed.

End Palette.

Lemma palette_is_factory_but_slot_1_witness :
  ∃ P, setEffect_palFrames samplePalette (zeros 15) samplePalLast sampleOptions
       = Some P
    ∧ length P = 37%nat
    ∧ ∃ F, factoryReset_palFrames samplePalette (zeros 15) samplePalLast
           = Some F
        ∧ (∀ i, i ≠ 1%nat → P !! i = F !! i)
        ∧ (P !! 1%nat) ≫= (.!! 12%nat) = Some 255
        ∧ (P !! 1%nat) ≫= (.!! 16%nat) = Some 0xff.
Proof.
  destruct (setEffect_palFrames samplePalette (zeros 15) samplePalLast
              sampleOptions) as [P|] eqn:HP; [|by vm_compute in HP].
  exists P. split; [done|].
  destruct (palette_is_factory_but_slot_1 samplePalette (zeros 15)
              samplePalLast sampleOptions P HP)
    as (Hlen & F & HF & _ & Hother & Hslot).
  split; [done|]. exists F. split; [done|]. split; [done|].
  destruct (Hslot 255 0 128 eq_refl) as (f1 & F1 & Hf1 & _ & H12 & _ & _ & H16 & _);
    [vm_compute; lia|].
  rewrite Hf1. cbn [mbind option_bind]. by rewrite H12, H16.
Defined.

(** ** Whole transactions *)

Section WholeTransactions.

Variable CFG_TEMPLATE : list (list Z).
Variable PAL_TEMPLATE : list (list Z).
Variable PAL_ZEROS : list Z.
Variable PAL_LAST : list Z.

Hypothesis Hfit : templatesFit CFG_TEMPLATE PAL_TEMPLATE PAL_ZEROS PAL_LAST.

Local Abbreviation setEffect' :=
  (setEffect CFG_TEMPLATE PAL_TEMPLATE PAL_ZEROS PAL_LAST).
Local Abbreviation factoryReset' :=
  (factoryReset CFG_TEMPLATE PAL_TEMPLATE PAL_ZEROS PAL_LAST).

Lemma paletteSlot_fits i :
  (length (paletteSlot PAL_TEMPLATE PAL_ZEROS PAL_LAST i) ≤ 15)%nat.
Proof.
  destruct Hfit as (_ & Hpal & Hz & Hl). unfold paletteSlot.
  repeat case_decide; try done.
  destruct (PAL_TEMPLATE !! i) as [p|] eqn:Hp; cbn; [|lia].
  rewrite Forall_lookup in Hpal. by apply (Hpal i).
Qed.

Lemma mapM_seq_is_Some {B} (f : nat → option B) (m : nat) :
  (∀ i, is_Some (f i)) → ∃ W, mapM f (seq 0 m) = Some W ∧ length W = m.
Proof.
  intros H. destruct (mapM f (seq 0 m)) as [W|] eqn:HW.
  - exists W. split; [done|]. apply length_mapM in HW.
    by rewrite length_seq in HW.
  - apply mapM_None, Exists_exists in HW as (i & _ & Hnone).
    destruct (H i) as [w Hw]. congruence.
Qed.

Lemma setEffect_palFrames_built opts :
  ∃ P, setEffect_palFrames PAL_TEMPLATE PAL_ZEROS PAL_LAST opts = Some P
       ∧ length P = 37%nat.
Proof.
  apply mapM_seq_is_Some. intros i. apply buildFrame_is_Some.
  rewrite length_palettePayload. apply paletteSlot_fits.
Qed.

Lemma factoryReset_palFrames_built :
  ∃ P, factoryReset_palFrames PAL_TEMPLATE PAL_ZEROS PAL_LAST = Some P
       ∧ length P = 37%nat.
Proof.
  apply mapM_seq_is_Some. intros i. apply buildFrame_is_Some.
  apply paletteSlot_fits.
Qed.

Lemma factoryReset_cfgFrames_built :
  ∃ W, factoryReset_cfgFrames CFG_TEMPLATE = Some W ∧ length W = 10%nat.
Proof.
  apply mapM_seq_is_Some. intros i. apply buildFrame_is_Some.
  destruct Hfit as (Hcfg & _).
  assert (Hlen : (length (newUint8Array (default [] (CFG_TEMPLATE !! i)))
                  ≤ 15)%nat).
  { unfold newUint8Array. rewrite length_fmap.
    destruct (CFG_TEMPLATE !! i) as [p|] eqn:Hp; cbn; [|lia].
    rewrite Forall_lookup in Hcfg. by apply (Hcfg i). }
  case_decide; by rewrite ?length_poke.
Qed.

Lemma setEffect_writeFrames_built config n opts :
  ∃ W, setEffect_writeFrames CFG_TEMPLATE config n opts = Some W
       ∧ length W = 10%nat.
Proof.
  destruct Hfit as (Hcfg & _). unfold setEffect_writeFrames.
  apply mapM_seq_is_Some. intros i. destruct (gotConfig config); [by eexists|].
  by apply setEffect_fromTemplate_is_Some.
Qed.

Lemma applyPerKey_writeFrames_built config :
  ∃ W, applyPerKey_writeFrames CFG_TEMPLATE config = Some W
       ∧ length W = 10%nat.
Proof.
  destruct Hfit as (Hcfg & _). unfold applyPerKey_writeFrames.
  apply mapM_seq_is_Some. intros i. destruct (gotConfig config); [by eexists|].
  by apply applyPerKey_fromTemplate_is_Some.
Qed.

(** X9. With templates that fit a frame, [factoryReset] never reads the
    device state: on every device, whatever it answers, it completes after
    sending the same 48 frames, the 10 template config frames, the 37 palette
    frames and the save frame, and no read request. *)
Theorem factoryReset_blind :
  ∃ W P,
    factoryReset_cfgFrames CFG_TEMPLATE = Some W ∧ length W = 10%nat
    ∧ factoryReset_palFrames PAL_TEMPLATE PAL_ZEROS PAL_LAST = Some P
    ∧ length P = 37%nat
    ∧ ∀ dev, (factoryReset' dev).1 = Done ()
             ∧ sent factoryReset' dev = W ++ P ++ [saveFrame]
             ∧ readFrame ∉ sent factoryReset' dev.
Proof.
  destruct factoryReset_cfgFrames_built as (W & HW & HlW).
  destruct factoryReset_palFrames_built as (P & HP & HlP).
  exists W, P. repeat split; try done.
  - pose proof (factoryReset_run CFG_TEMPLATE PAL_TEMPLATE PAL_ZEROS PAL_LAST
                  dev) as Hrun. cbv zeta in Hrun.
    rewrite HW, HP in Hrun. by destruct Hrun.
  - pose proof (factoryReset_run CFG_TEMPLATE PAL_TEMPLATE PAL_ZEROS PAL_LAST
                  dev) as Hrun. cbv zeta in Hrun.
    rewrite HW, HP in Hrun. destruct Hrun as [_ Hout]. by apply sent_outbox.
  - pose proof (factoryReset_run CFG_TEMPLATE PAL_TEMPLATE PAL_ZEROS PAL_LAST
                  dev) as Hrun. cbv zeta in Hrun.
    rewrite HW, HP in Hrun. destruct Hrun as [_ Hout].
    rewrite (sent_outbox _ _ _ Hout).
    assert (Hcmd : ∀ f, f ∈ W ++ P ++ [saveFrame] →
              f !! 1%nat ≠ Some CMD_READ).
    { intros f. rewrite !elem_of_app, list_elem_of_singleton.
      intros [Hf|[Hf| ->]]; [| |done].
      - apply list_elem_of_lookup in Hf as [k Hk].
        destruct (mapM_seq_lookup _ _ _ _ _ HW Hk) as [_ Hb].
        apply buildFrame_fields in Hb as (_ & _ & -> & _). done.
      - apply list_elem_of_lookup in Hf as [k Hk].
        destruct (mapM_seq_lookup _ _ _ _ _ HP Hk) as [_ Hb].
        apply buildFrame_fields in Hb as (_ & _ & -> & _). done. }
    intros Hin. by apply (Hcmd readFrame Hin).
Qed.

(** X10. With templates that fit a frame, the length of a transaction does
    not depend on what the device answers after the read phase: [setEffect]
    on a known effect completes after 49 frames (read request, 10 config, 37
    palette, save) and [applyPerKey] after 40 (read request, 10 config, 28
    per-key, save), on a complete read as on an incomplete one, and no
    missing echo shortens them; [setSleepTimer] sends 12 frames on a complete
    read and the read request alone otherwise. *)
Theorem transaction_lengths (dev : Device) :
  (∀ n eff opts, EFFECTS n = Some eff →
      (setEffect' n opts dev).1 = Done ()
      ∧ length (sent (setEffect' n opts) dev) = 49%nat)
  ∧ (∀ keyColors,
      (applyPerKey CFG_TEMPLATE keyColors dev).1 = Done ()
      ∧ length (sent (applyPerKey CFG_TEMPLATE keyColors) dev) = 40%nat)
  ∧ (∀ minutes,
      (setSleepTimer minutes dev).1 = Done ()
      ∧ length (sent (setSleepTimer minutes) dev)
        = if gotConfig (configRead dev) then 12%nat else 1%nat).
Proof.
  split; [|split].
  - intros n eff opts Heff.
    pose proof (setEffect_run CFG_TEMPLATE PAL_TEMPLATE PAL_ZEROS PAL_LAST
                  n eff opts dev Heff) as Hrun. cbv zeta in Hrun.
    destruct (setEffect_writeFrames_built (configRead dev) n opts)
      as (W & HW & HlW).
    destruct (setEffect_palFrames_built opts) as (P & HP & HlP).
    rewrite HW, HP in Hrun. destruct Hrun as [Hdone Hout].
    split; [done|]. rewrite (sent_outbox _ _ _ Hout).
    cbn [length]. rewrite !length_app, HlW, HlP. done.
  - intros keyColors.
    pose proof (applyPerKey_run CFG_TEMPLATE keyColors dev) as Hrun.
    cbv zeta in Hrun.
    destruct (applyPerKey_writeFrames_built (configRead dev))
      as (W & HW & HlW).
    destruct (perKeyPlanes_lookup keyColors) as (R & G & B & HK & _ & _).
    destruct (perkey_planes_run R G B) as (fs & Hfs & Hlfs & _).
    destruct (buildFrame_is_Some CMD_PERKEY SUBCMD_PERKEY 27 trailer)
      as [t Ht]; [cbn; lia|].
    assert (HKf : applyPerKey_perkeyFrames keyColors = Some (fs ++ [t])).
    { unfold applyPerKey_perkeyFrames. rewrite HK, Hfs.
      cbn [mbind option_bind fst snd]. by rewrite Ht. }
    rewrite HW, HKf in Hrun. destruct Hrun as [Hdone Hout].
    split; [done|]. rewrite (sent_outbox _ _ _ Hout).
    cbn [length]. rewrite !length_app, HlW, Hlfs. done.
  - intros minutes.
    destruct (setSleepTimer_run minutes dev) as (dev' & Hrun & Hout).
    rewrite Hrun. split; [done|].
    destruct (gotConfig (configRead dev)).
    + rewrite (sent_outbox (setSleepTimer minutes) dev _)
        by (by rewrite Hrun).
      cbn [length]. rewrite length_app.
      unfold setSleepTimer_writeFrames. by rewrite length_fmap, length_seq.
    + destruct Hout as [Hout _].
      by rewrite (sent_outbox (setSleepTimer minutes) dev _)
        by (by rewrite Hrun).
Qed.

End WholeTransactions.

Lemma templatesFit_sample :
  templatesFit sampleTemplate samplePalette (zeros 15) samplePalLast.
Proof.
  repeat split; try (cbn; lia); repeat (constructor; [cbn; lia|]); constructor.
Qed.

Lemma factoryReset_blind_witness :
  ∃ W P,
    factoryReset_cfgFrames sampleTemplate = Some W ∧ length W = 10%nat
    ∧ factoryReset_palFrames samplePalette (zeros 15) samplePalLast = Some P
    ∧ length P = 37%nat
    ∧ ∀ dev,
        (factoryReset sampleTemplate samplePalette (zeros 15) samplePalLast
           dev).1 = Done ()
        ∧ sent (factoryReset sampleTemplate samplePalette (zeros 15)
                  samplePalLast) dev = W ++ P ++ [saveFrame]
        ∧ readFrame ∉ sent (factoryReset sampleTemplate samplePalette
                              (zeros 15) samplePalLast) dev.
Proof.
  apply (factoryReset_blind sampleTemplate samplePalette (zeros 15)
           samplePalLast).
  repeat split; try (cbn; lia); repeat (constructor; [cbn; lia|]); constructor.
Defined.

Lemma transaction_lengths_witness :
  (∀ n eff opts, EFFECTS n = Some eff →
      (setEffect sampleTemplate samplePalette (zeros 15) samplePalLast n opts
         silentDevice).1 = Done ()
      ∧ length (sent (setEffect sampleTemplate samplePalette (zeros 15)
                        samplePalLast n opts) silentDevice) = 49%nat)
  ∧ (∀ keyColors,
      (applyPerKey sampleTemplate keyColors silentDevice).1 = Done ()
      ∧ length (sent (applyPerKey sampleTemplate keyColors) silentDevice)
        = 40%nat)
  ∧ (∀ minutes,
      (setSleepTimer minutes silentDevice).1 = Done ()
      ∧ length (sent (setSleepTimer minutes) silentDevice)
        = if gotConfig (configRead silentDevice) then 12%nat else 1%nat).
Proof.
  apply (transaction_lengths sampleTemplate samplePalette (zeros 15)
           samplePalLast).
  repeat split; try (cbn; lia); repeat (constructor; [cbn; lia|]); constructor.
Defined.

(** ** One sleep timer after another *)

Lemma checksum_insert_19 (f : list Z) v : checksum (<[19%nat := v]> f) = checksum f.
Proof. unfold checksum. by rewrite take_insert_ge. Qed.

(** Brings nested stores at the offsets 1, 8, 15 and 19 into one order and
    merges repeated stores at one offset. *)
Ltac sort_stores :=
  unfold poke;
  repeat first
    [ rewrite list_insert_insert_eq
    | rewrite checksum_insert_19
    | rewrite (list_insert_insert_ne _ 1 8) by lia
    | rewrite (list_insert_insert_ne _ 1 15) by lia
    | rewrite (list_insert_insert_ne _ 1 19) by lia
    | rewrite (list_insert_insert_ne _ 8 15) by lia
    | rewrite (list_insert_insert_ne _ 8 19) by lia
    | rewrite (list_insert_insert_ne _ 15 19) by lia ].

Lemma setSleepTimer_fromRead_overwrites b1 b2 s r c :
  setSleepTimer_fromRead b2 s (<[1%nat := c]> (setSleepTimer_fromRead b1 s r))
  = setSleepTimer_fromRead b2 s r.
Proof.
  unfold setSleepTimer_fromRead. cbv zeta.
  repeat case_decide; try lia; by sort_stores.
Qed.

(** X11. For the sleep timer the last write wins: when the frames written
    for [m1] minutes are, up to their command byte, what the next read
    returns, the frames [setSleepTimer] writes for [m2] minutes are exactly
    those it would have written for [m2] from the first read; nothing of the
    earlier value survives. *)
Theorem setSleepTimer_last_write_wins (dev : Device) (m1 m2 : Z)
    (echo : list (list Z)) :
  echoOf (setSleepTimer_writeFrames (configRead dev) (m1 * 2)) echo →
  setSleepTimer_writeFrames (Some <$> echo) (m2 * 2)
  = setSleepTimer_writeFrames (configRead dev) (m2 * 2).
Proof.
  intros Hecho. unfold setSleepTimer_writeFrames.
  apply list_fmap_ext. intros k s Hs. apply lookup_seq in Hs as [-> Hk].
  cbn [Nat.add].
  assert (Hw : setSleepTimer_writeFrames (configRead dev) (m1 * 2) !! k
               = Some (setSleepTimer_fromRead (m1 * 2) k
                         (fragment (configRead dev) k)))
    by (by apply setSleepTimer_writeFrames_lookup).
  destruct (Forall2_lookup_l _ _ _ _ _ Hecho Hw) as (e & He & c & ->).
  rewrite (fragment_Some _ _ _ He).
  apply setSleepTimer_fromRead_overwrites.
Qed.

Lemma setSleepTimer_last_write_wins_witness :
  setSleepTimer_writeFrames
    (Some <$> setSleepTimer_writeFrames (configRead sampleDevice) (15 * 2))
    (5 * 2)
  = setSleepTimer_writeFrames (configRead sampleDevice) (5 * 2).
Proof.
  apply (setSleepTimer_last_write_wins sampleDevice 15 5).
  apply Forall2_same_length_lookup. split; [done|].
  intros i f e Hf He. exists CMD_WRITE.
  assert (e = f) as -> by congruence.
  symmetry. apply list_insert_id.
  unfold setSleepTimer_writeFrames in Hf.
  apply lookup_fmap_seq in Hf as [Hi ->].
  apply setSleepTimer_fromRead_command.
  by destruct (configRead_fragment_valid sampleDevice i eq_refl Hi).
Defined.

(** ** The parameters that are asked for *)

Lemma rewrittenSpeedByte_explicit opts s s0 c0 :
  speed opts = Some s → 0 ≤ s ≤ 4 → 0 ≤ s0 ≤ 4 →
  let c := if colorful opts then true
           else negb (bool_decide (is_Some (colorRgb opts))) && c0 in
  rewrittenSpeedByte opts (encodeSpeedByte s0 c0) = encodeSpeedByte s c
  ∧ decodeSpeedByte (encodeSpeedByte s c)
    = {| sb_speed := s; sb_colorful := c |}.
Proof.
  intros Hs Hrange Hrange0 c. unfold rewrittenSpeedByte. rewrite Hs.
  rewrite !decodeSpeedByte_arith, !encodeSpeedByte_arith.
  cbn [sb_speed sb_colorful]. unfold wrap8.
  assert (Hold : ((16 * s0 + (if c0 then 7 else 0)) mod 16 =? 7) = c0).
  { destruct c0.
    - apply Z.eqb_eq. Z.div_mod_to_equations. lia.
    - apply Z.eqb_neq. Z.div_mod_to_equations. lia. }
  rewrite Hold. fold c. split.
  - destruct c; Z.div_mod_to_equations; lia.
  - f_equal.
    + destruct c; Z.div_mod_to_equations; lia.
    + destruct c.
      * apply Z.eqb_eq. Z.div_mod_to_equations. lia.
      * apply Z.eqb_neq. Z.div_mod_to_equations. lia.
Qed.

(** X12. When [setEffect] is given a speed 0..4 for an effect of the table
    whose speed byte was read as the encoding of a speed 0..4 and a colour
    mode, the speed byte it writes over a complete read is the encoding of
    the given speed, with the colour mode colorful when [colorful] is set,
    single colour when only a custom colour is given, and the mode read
    otherwise, and it decodes to these; a given brightness is stored modulo
    256 in the byte before it, and without one that byte is written back as
    read. *)
Theorem setEffect_explicit_parameters (CFG_TEMPLATE : list (list Z))
    (dev : Device) (n : Z) (tgtSeq tgtOff : nat) (opts : EffectOptions)
    (s : Z) (r : list Z) (s0 : Z) (c0 : bool) :
  effectTableLoc n = Some (tgtSeq, tgtOff) →
  speed opts = Some s → 0 ≤ s ≤ 4 →
  gotConfig (configRead dev) = true →
  configRead dev !! tgtSeq = Some (Some r) →
  0 ≤ s0 ≤ 4 →
  r !! (tgtOff + 1)%nat = Some (encodeSpeedByte s0 c0) →
  let c := if colorful opts then true
           else negb (bool_decide (is_Some (colorRgb opts))) && c0 in
  ∃ W w,
    setEffect_writeFrames CFG_TEMPLATE (configRead dev) n opts = Some W
    ∧ W !! tgtSeq = Some w
    ∧ w !! (tgtOff + 1)%nat = Some (encodeSpeedByte s c)
    ∧ decodeSpeedByte (encodeSpeedByte s c)
      = {| sb_speed := s; sb_colorful := c |}
    ∧ w !! tgtOff = match brightness opts with
                    | Some b => Some (b mod 256)
                    | None => r !! tgtOff
                    end.
Proof.
  intros Hloc Hs Hrange Hgot Hr Hrange0 Hold c.
  pose proof (effectTableLoc_Some _ _ _ Hloc) as (_ & Hseq & Hoff).
  destruct (configRead_fragment dev tgtSeq Hgot)
    as (r' & Hr' & Hfr & Hfrag & _); [lia|].
  assert (r' = r) as -> by congruence. destruct Hfrag as (Hlen & _).
  destruct (rewrittenSpeedByte_explicit opts s s0 c0 Hs Hrange Hrange0)
    as [Hnew Hdec]. fold c in Hnew, Hdec.
  eexists _, _. split; [by apply setEffect_writeFrames_read|].
  split; [rewrite list_lookup_fmap, lookup_seq_lt by lia; reflexivity|].
  change (0 + tgtSeq)%nat with tgtSeq. rewrite Hfr.
  split.
  { rewrite Hloc, <- Hnew, <- (peek_lookup _ _ _ Hold).
    by apply setEffect_fromRead_speed_byte. }
  split; [exact Hdec|].
  destruct (brightness opts) as [b|] eqn:Hb.
  - unfold setEffect_fromRead. cbv zeta. rewrite Hloc, Hb.
    do 2 (case_decide; try lia). by poke_lookup.
  - apply setEffect_fromRead_untouched.
    intros [H|[H|[[H _]|(off & Hloc' & [H|[_ [b Hb']]])]]];
      try lia; try congruence.
    rewrite Hloc in Hloc'. injection Hloc' as <-. lia.
Qed.

Lemma setEffect_explicit_parameters_witness :
  ∃ W w,
    setEffect_writeFrames sampleTemplate (configRead sampleDevice) 2
      {| colorRgb := None; colorful := false;
         speed := Some 1; brightness := Some 3 |} = Some W
    ∧ W !! 4%nat = Some w
    ∧ w !! (9 + 1)%nat = Some (encodeSpeedByte 1 true)
    ∧ decodeSpeedByte (encodeSpeedByte 1 true)
      = {| sb_speed := 1; sb_colorful := true |}
    ∧ w !! 9%nat = Some (3 mod 256).
Proof.
  apply (setEffect_explicit_parameters sampleTemplate sampleDevice 2 4 9
           {| colorRgb := None; colorful := false;
              speed := Some 1; brightness := Some 3 |} 1
           (fragment (configRead sampleDevice) 4) 4 true);
    try reflexivity; lia.
Defined.

(** X13. [setEffect] sends nothing at all exactly when the effect number is
    not in the table: then it only logs the unknown effect, sends no read
    request and uses up no device outcome; for an effect of the table the
    read request is always the first frame sent. *)
Theorem setEffect_unknown_effect (CFG_TEMPLATE PAL_TEMPLATE : list (list Z))
    (PAL_ZEROS PAL_LAST : list Z) (n : Z) (opts : EffectOptions)
    (dev : Device) :
  let run := setEffect CFG_TEMPLATE PAL_TEMPLATE PAL_ZEROS PAL_LAST n opts in
  (EFFECTS n = None →
     run dev = (Done (), {| inbox := inbox dev; outbox := outbox dev;
                            console := console dev ++ [LogUnknownEffect n] |}))
  ∧ (sent run dev = [] ↔ EFFECTS n = None)
  ∧ (is_Some (EFFECTS n) → head (sent run dev) = Some readFrame).
Proof.
  intros run.
  assert (Hknown : ∀ eff, EFFECTS n = Some eff →
            head (sent run dev) = Some readFrame).
  { intros eff Heff.
    pose proof (setEffect_run CFG_TEMPLATE PAL_TEMPLATE PAL_ZEROS PAL_LAST
                  n eff opts dev Heff) as Hrun. cbv zeta in Hrun.
    destruct (setEffect_writeFrames _ _ n opts) as [W|];
      [destruct (setEffect_palFrames _ _ _ opts) as [P|]|];
      destruct Hrun as [_ Hout]; unfold run;
      by rewrite (sent_outbox _ _ _ Hout). }
  assert (Hunknown : EFFECTS n = None →
            run dev = (Done (), {| inbox := inbox dev; outbox := outbox dev;
                          console := console dev ++ [LogUnknownEffect n] |})).
  { intros Hnone. unfold run, setEffect. by rewrite Hnone. }
  split; [done|]. split; [split|].
  - intros Hsent. destruct (EFFECTS n) as [eff|] eqn:Heff; [|done].
    specialize (Hknown eff eq_refl). by rewrite Hsent in Hknown.
  - intros Hnone. unfold sent. rewrite (Hunknown Hnone). cbn [snd outbox].
    by rewrite drop_all.
  - intros [eff Heff]. by apply (Hknown eff).
Qed.

(** ** The panels *)

(** X14. Whatever the state of the effects panel, the call it makes is for
    an effect of the table (never the unknown-effect path), and its options
    never combine a custom colour with colorful: exactly one of the two is
    set, so the colour mode sent is always 0x01 and never the default 0x03.
    An effect without colour support is always sent as colorful, an effect
    without speed support with no speed (its speed nibble is kept), and a
    brightness is always given. *)
Theorem handleApply_options (hexToRgb : string → Z * Z * Z)
    (st : EffectsPanel.State) (n : Z) (opts : EffectOptions) :
  EffectsPanel.handleApply hexToRgb st = Some (n, opts) →
  ∃ eff,
    EFFECTS n = Some eff
    ∧ EffectsPanel.activeEffect st = Some n
    ∧ colorMode opts = 0x01
    ∧ (colorful opts = true ↔ colorRgb opts = None)
    ∧ (Protocol.color eff = false → colorful opts = true)
    ∧ speed opts = (if Protocol.speed eff
                    then Some (EffectsPanel.speed st) else None)
    ∧ brightness opts = Some (EffectsPanel.brightness st).
Proof.
  unfold EffectsPanel.handleApply.
  destruct (EffectsPanel.activeEffect st) as [m|]; [|done].
  case_decide; [done|].
  destruct (EFFECTS m) as [eff|] eqn:Heff; [|done].
  intros [= <- <-]. exists eff. split; [done|]. split; [done|].
  unfold colorMode. cbn [colorRgb colorful speed brightness].
  destruct (Protocol.color eff), (EffectsPanel.colorful st); cbn;
    repeat split; try done; intros; done.
Qed.

Lemma handleApply_options_witness :
  ∃ eff,
    EFFECTS 3 = Some eff
    ∧ colorMode
        (Build_EffectOptions None true (Some 4) (Some 4)) = 0x01
    ∧ (Protocol.color eff = false → true = true).
Proof.
  destruct (handleApply_options (λ _, (255, 0, 0))
              (EffectsPanel.Build_State (Some 3) "#ff0000" false 4 4)
              3 (Build_EffectOptions None true (Some 4) (Some 4)) eq_refl)
    as (eff & Heff & _ & Hmode & _ & Hcol & _).
  exists eff. done.
Defined.

Lemma paintSelected_lookup (hexToRgb : string → Z * Z * Z)
    (paintColor : string) (selectedKeys : gset Z)
    (prev : gmap Z (Z * Z * Z)) (i : Z) :
  PerKeyPanel.paintSelected hexToRgb paintColor selectedKeys prev !! i
  = if decide (i ∈ selectedKeys) then Some (hexToRgb paintColor)
    else prev !! i.
Proof.
  unfold PerKeyPanel.paintSelected. cbv zeta.
  cut ((i ∈ selectedKeys →
          set_fold (λ idx next, <[idx := hexToRgb paintColor]> next)
            prev selectedKeys !! i = Some (hexToRgb paintColor))
       ∧ (i ∉ selectedKeys →
          set_fold (λ idx next, <[idx := hexToRgb paintColor]> next)
            prev selectedKeys !! i = prev !! i)).
  { intros [Hin Hout]. case_decide; auto. }
  apply (set_fold_ind_L
    (λ (m : gmap Z (Z * Z * Z)) (X : gset Z),
       (i ∈ X → m !! i = Some (hexToRgb paintColor))
       ∧ (i ∉ X → m !! i = prev !! i))).
  - split; [set_solver | done].
  - intros x X m Hx [IHin IHout]. destruct (decide (x = i)) as [->|Hne].
    + rewrite lookup_insert_eq. split; [done | set_solver].
    + rewrite lookup_insert_ne by done. split.
      * intros Hi. apply IHin. set_solver.
      * intros Hi. apply IHout. set_solver.
Qed.

(** X15. Clicking a key without shift selects that key alone, whatever was
    selected before (it never deselects); with shift it flips the key in the
    selection and leaves every other key as it was, so two shift-clicks on
    one key restore the selection. *)
Theorem toggleKey_selection (ledIdx : Z) (prev : gset Z) :
  PerKeyPanel.toggleKey ledIdx false prev = {[ledIdx]}
  ∧ (ledIdx ∈ PerKeyPanel.toggleKey ledIdx true prev ↔ ledIdx ∉ prev)
  ∧ (∀ k, k ≠ ledIdx →
       (k ∈ PerKeyPanel.toggleKey ledIdx true prev ↔ k ∈ prev))
  ∧ PerKeyPanel.toggleKey ledIdx true
      (PerKeyPanel.toggleKey ledIdx true prev) = prev.
Proof.
  unfold PerKeyPanel.toggleKey. cbv zeta. split; [|split; [|split]].
  - rewrite decide_False by set_solver. set_solver.
  - destruct (decide (ledIdx ∈ prev)); set_solver.
  - intros k Hk. destruct (decide (ledIdx ∈ prev)); set_solver.
  - destruct (decide (ledIdx ∈ prev)) as [Hin|Hout].
    + rewrite decide_False by set_solver.
      apply set_eq. intros k. destruct (decide (k = ledIdx)); set_solver.
    + rewrite decide_True by set_solver.
      apply set_eq. intros k. destruct (decide (k = ledIdx)); set_solver.
Qed.

Lemma paintedAt_byteColor keyColors i :
  (∀ k rgb, (k, rgb) ∈ keyColors → byteColor rgb) →
  byteColor (paintedAt keyColors i).
Proof.
  intros Hbytes. unfold paintedAt.
  destruct (last (filter _ keyColors)) as [[k rgb]|] eqn:Hlast; cbn.
  - apply (Hbytes k). apply last_Some_elem_of in Hlast.
    by apply list_elem_of_filter in Hlast as [_ ?].
  - unfold byteColor. cbn. lia.
Qed.

(** Whatever the keys, the frames read back at each LED the colour of the
    last entry read as that LED. *)
Lemma decodePerKey_frames keyColors frames :
  (∀ k rgb, (k, rgb) ∈ keyColors → byteColor rgb) →
  applyPerKey_perkeyFrames keyColors = Some frames →
  ∀ i, (i < 126)%nat → decodePerKey frames i = paintedAt keyColors i.
Proof.
  intros Hbytes Hframes i Hi.
  destruct (perKeyPlanes_lookup keyColors)
    as (R & G & B & Hplanes & _ & Hlook).
  destruct (perkey_planes_run R G B) as (fs & Hrun & Hlen & Hfs).
  destruct (buildFrame_is_Some CMD_PERKEY SUBCMD_PERKEY 27 trailer)
    as [t Ht]; [cbn; lia|].
  assert (Hall : applyPerKey_perkeyFrames keyColors = Some (fs ++ [t])).
  { unfold applyPerKey_perkeyFrames. rewrite Hplanes, Hrun.
    cbn [mbind option_bind fst snd]. by rewrite Ht. }
  rewrite Hall in Hframes. apply (inj Some) in Hframes.
  subst frames. unfold decodePerKey.
  assert (Hs : (i / 14 < 9)%nat) by (apply Nat.Div0.div_lt_upper_bound; lia).
  assert (Hj : (i mod 14 < 14)%nat) by (apply Nat.mod_upper_bound; lia).
  assert (Hi' : (i / 14 * 14 + i mod 14)%nat = i)
    by (rewrite (Nat.div_mod_eq i 14) at 3; lia).
  pose proof (paintedAt_byteColor keyColors i Hbytes) as (Hr & Hg & Hb).
  destruct (Hlook i Hi) as (HR & HG & HB).
  assert (Hread : ∀ plane P, (plane < 3)%nat →
    default [] ([R; G; B] !! plane) = P →
    P !! i = Some (wrap8 (channel plane (paintedAt keyColors i))) →
    0 ≤ channel plane (paintedAt keyColors i) < 256 →
    peek (default [] ((fs ++ [t]) !! (plane * 9 + i / 14)%nat))
         (5 + i mod 14) = channel plane (paintedAt keyColors i)).
  { intros plane P Hp HP HPi Hc.
    destruct (Hfs plane (i / 14)%nat Hp Hs) as (f & Hf & Hbuilt).
    rewrite lookup_app_l by lia. rewrite Hf. cbn [default from_option id].
    change (5 + i mod 14)%nat with (4 + (1 + i mod 14))%nat.
    unfold peek at 1.
    rewrite (buildFrame_lookup_payload _ _ _ _ _ _ Hbuilt)
      by (rewrite length_planePayload; lia).
    cbn [default from_option id].
    rewrite peek_planePayload by done. rewrite HP, Hi'.
    unfold peek. rewrite HPi. cbn [default from_option id].
    by rewrite !wrap8_idemp, wrap8_byte. }
  pose proof (Hread 0%nat R ltac:(lia) eq_refl HR Hr) as E0.
  pose proof (Hread 1%nat G ltac:(lia) eq_refl HG Hg) as E1.
  pose proof (Hread 2%nat B ltac:(lia) eq_refl HB Hb) as E2.
  rewrite E0, E1, E2.
  by destruct (paintedAt keyColors i) as [[r g] b].
Qed.

Lemma property_Some {V} key (obj : list (PropertyKey * V)) v :
  NoDup obj.*1 → property key obj = Some v ↔ (key, v) ∈ obj.
Proof.
  intros Hnd. split; [apply property_elem|].
  induction obj as [|[k w] obj IH]; [by intros ?%elem_of_nil|].
  rewrite fmap_cons in Hnd. apply NoDup_cons in Hnd as [Hk Hnd].
  cbn [property fst] in *. intros [[= <- <-]|Hin]%elem_of_cons.
  - by rewrite decide_True.
  - rewrite decide_False; [by apply IH|]. intros ->. apply Hk.
    apply list_elem_of_fmap. by exists (key, v).
Qed.

(** The entries of a number-keyed map are keyed in plain decimal, and the
    property of an integer is what the map has for it. *)
Lemma objectEntries_plain {V} (m : gmap Z V) entries :
  objectEntries m entries →
  plainKeys entries ∧ ∀ k, property (numberKey k) entries = m !! k.
Proof.
  unfold objectEntries. intros [_ Hperm].
  assert (Hin : ∀ key v, (key, v) ∈ entries
                         ↔ ∃ k, key = numberKey k ∧ m !! k = Some v).
  { intros key v. rewrite Hperm, list_elem_of_fmap. split.
    - intros ([k w] & [= -> ->] & Hkw). exists k. split; [done|].
      by apply elem_of_map_to_list.
    - intros (k & -> & Hk). exists (k, v). split; [done|].
      by apply elem_of_map_to_list. }
  assert (Hnd : NoDup entries.*1).
  { rewrite Hperm, <- list_fmap_compose.
    change (NoDup ((numberKey ∘ fst) <$> map_to_list m)).
    rewrite list_fmap_compose.
    apply (NoDup_fmap_2 _ (Inj0 := numberKey_inj)).
    apply NoDup_fst_map_to_list. }
  split; [split; [done|]|].
  - intros key ([key' v] & -> & He)%list_elem_of_fmap.
    apply Hin in He as (k & -> & _). by exists k.
  - intros k. apply option_eq. intros v. rewrite property_Some by done.
    rewrite Hin. split.
    + by intros (k' & ->%numberKey_inj & ?).
    + intros ?. by exists k.
Qed.

(** X16. Painting and applying compose: after [paintSelected] with a byte
    colour on a byte-coloured map, the per-key frames that [applyPerKey]
    builds from the entries of the painted map, in whatever order they come,
    read back, at every LED 0..125, as the paint colour where the key is
    selected and as the colour the map had before elsewhere ((0,0,0) where
    it had none).  The keys of the painted map are integers below 2^53 in
    magnitude, which the language writes in plain decimal. *)
Theorem paint_then_apply (hexToRgb : string → Z * Z * Z)
    (paintColor : string) (selectedKeys : gset Z)
    (prev : gmap Z (Z * Z * Z))
    (entries : list (PropertyKey * (Z * Z * Z))) :
  byteColor (hexToRgb paintColor) →
  (∀ k rgb, prev !! k = Some rgb → byteColor rgb) →
  objectEntries
    (PerKeyPanel.paintSelected hexToRgb paintColor selectedKeys prev) entries →
  ∃ frames,
    applyPerKey_perkeyFrames entries = Some frames
    ∧ ∀ i, (i < 126)%nat →
        decodePerKey frames i
        = if decide (Z.of_nat i ∈ selectedKeys) then hexToRgb paintColor
          else default (0, 0, 0) (prev !! Z.of_nat i).
Proof.
  intros Hpaint Hprev Hentries.
  destruct (objectEntries_plain _ _ Hentries) as [Hplain Hprop].
  assert (Hbytes : ∀ k rgb, (k, rgb) ∈ entries → byteColor rgb).
  { intros key rgb He. destruct Hplain as [Hnd Hkeys].
    destruct (Hkeys key) as [k ->];
      [apply list_elem_of_fmap; by exists (key, rgb)|].
    apply property_Some in He; [|done].
    rewrite Hprop, paintSelected_lookup in He.
    case_decide; [by injection He as <- | by eapply Hprev]. }
  destruct (applyPerKey_perkeyFrames_is_Some entries) as [frames Hframes].
  exists frames. split; [done|]. intros i Hi.
  rewrite (decodePerKey_frames entries frames Hbytes Hframes i Hi).
  rewrite paintedAt_plain by done. unfold colorAt.
  rewrite Hprop, paintSelected_lookup. by case_decide.
Qed.

Lemma paint_then_apply_witness :
  ∃ frames,
    applyPerKey_perkeyFrames
      [(codeUnits "9", (255, 0, 0)); (codeUnits "14", (255, 0, 0));
       (codeUnits "62", (0, 255, 0))]
    = Some frames
    ∧ ∀ i, (i < 126)%nat →
        decodePerKey frames i
        = if decide (Z.of_nat i ∈ ({[9; 14]} : gset Z)) then (255, 0, 0)
          else default (0, 0, 0)
                 (({[14 := (1, 2, 3); 62 := (0, 255, 0)]}
                   : gmap Z (Z * Z * Z)) !! Z.of_nat i).
Proof.
  apply (paint_then_apply (λ _, (255, 0, 0)) "#ff0000" {[9; 14]}
           {[14 := (1, 2, 3); 62 := (0, 255, 0)]}).
  - unfold byteColor. cbn. lia.
  - intros k rgb Hk.
    apply lookup_insert_Some in Hk as [[<- <-]|[_ Hk]];
      [unfold byteColor; cbn; lia|].
    apply lookup_singleton_Some in Hk as [<- <-]. unfold byteColor. cbn. lia.
  - split.
    + apply (bool_decide_unpack (map_Forall _ _)). exact I.
    + vm_compute. apply perm_skip, perm_swap.
Defined.
